(** * Adafruit_MonoOLED: framebuffer addressing, bring-up and command dispatch

    A shallow embedding of [Adafruit_MonoOLED.cpp].  The pixel routines
    ([drawPixel], [getPixel], [clearDisplay]) are pure functions on the
    object state that return [None] where the C++ code would leave defined
    behaviour (NULL buffer, access outside the allocated block).  The
    routines that talk to the hardware ([_init], [oled_command],
    [oled_commandList]) live in a small command monad that threads the
    object state and the trace of calls made to the platform.

    Integers: [int16_t] and [uint8_t] stores wrap explicitly ([int16],
    [uint8]).  Intermediate [int] arithmetic is written in [Z]; [int] is
    taken to be 32 bits wide, which the promoted 16-bit operands of this
    file cannot overflow (lemma [int_arith_fits]). *)

From Stdlib Require Import ZArith Lia Bool List.
From stdpp Require Import base option list.
Import ListNotations.

Local Open Scope Z_scope.

(** ** Machine integers *)

(** Conversion to [int16_t] (two's complement wrap-around). *)
Definition int16 (z : Z) : Z := (z + 32768) mod 65536 - 32768.

(** Conversion to [uint8_t]. *)
Definition uint8 (z : Z) : Z := z mod 256.

Definition is_int16 (z : Z) : Prop := -32768 <= z <= 32767.
Definition is_uint8 (z : Z) : Prop := 0 <= z < 256.

(** [#define monooled_swap(a, b) (((a) ^= (b)), ((b) ^= (a)), ((a) ^= (b)))]
    applied to two distinct [int16_t] variables. *)
Definition monooled_swap (a b : Z) : Z * Z :=
  let a := int16 (Z.lxor a b) in
  let b := int16 (Z.lxor b a) in
  let a := int16 (Z.lxor a b) in
  (a, b).

(** ** Collaborators *)

Inductive TwoWire := Wire (id : nat).
Inductive SPIClass := SPIBus (id : nat).

Record Adafruit_I2CDevice := I2CDevice { i2c_addr : Z; i2c_wire : TwoWire }.

Inductive Adafruit_SPIDevice :=
| SoftSPI (cs sclk miso mosi : Z) (freq : Z)
| HardSPI (cs : Z) (freq : Z) (spi : SPIClass).

Inductive PinLevel := LOW | HIGH.
Inductive PinDirection := INPUT | OUTPUT.

(** Calls made to the platform and to the transport devices, in order. *)
Inductive Event :=
| EvMalloc (size : Z)
| EvNewI2C (addr : Z) (wire : TwoWire)
| EvI2CBegin (dev : Adafruit_I2CDevice)
| EvSPIBegin (dev : Adafruit_SPIDevice)
| EvPinMode (pin : Z) (dir : PinDirection)
| EvDigitalWrite (pin : Z) (level : PinLevel)
| EvDelay (ms : Z)
| EvI2CWrite (dev : Adafruit_I2CDevice) (data : list Z) (stop : bool)
             (prefix : list Z)
| EvSPIWrite (dev : Adafruit_SPIDevice) (data : list Z).

(** What the platform answers: the block handed out by [malloc] (or NULL),
    whether [new] yields an object, and the results of the transports'
    [begin] and [write]. *)
Record World := {
  w_malloc : Z -> option (list Z);
  w_new_i2c : bool;
  w_i2c_begin : Adafruit_I2CDevice -> bool;
  w_spi_begin : Adafruit_SPIDevice -> bool;
  w_i2c_write : Adafruit_I2CDevice -> list Z -> bool -> list Z -> bool
}.

(** ** Object state *)

(** Modelled from the spec: the Adafruit_GFX base class (Adafruit_GFX.h/.cpp)
    is not among the sources.  It holds the unrotated physical size
    ([WIDTH], [HEIGHT]), the logical post-rotation size reported by
    [width()]/[height()] and the current rotation (0-3). *)
Record Adafruit_GFX := GFX {
  WIDTH : Z;
  HEIGHT : Z;
  _width : Z;
  _height : Z;
  rotation : Z
}.

Record Adafruit_MonoOLED := MonoOLED {
  gfx : Adafruit_GFX;
  buffer : option (list Z);
  dcPin : Z;
  csPin : Z;
  rstPin : Z;
  _theWire : option TwoWire;
  i2c_dev : option Adafruit_I2CDevice;
  spi_dev : option Adafruit_SPIDevice;
  i2c_preclk : Z;
  i2c_postclk : Z
}.

Definition set_gfx (d : Adafruit_MonoOLED) (g : Adafruit_GFX) :=
  MonoOLED g (buffer d) (dcPin d) (csPin d) (rstPin d) (_theWire d)
           (i2c_dev d) (spi_dev d) (i2c_preclk d) (i2c_postclk d).

Definition set_buffer (d : Adafruit_MonoOLED) (b : option (list Z)) :=
  MonoOLED (gfx d) b (dcPin d) (csPin d) (rstPin d) (_theWire d)
           (i2c_dev d) (spi_dev d) (i2c_preclk d) (i2c_postclk d).

Definition set_i2c_dev (d : Adafruit_MonoOLED) (v : option Adafruit_I2CDevice) :=
  MonoOLED (gfx d) (buffer d) (dcPin d) (csPin d) (rstPin d) (_theWire d)
           v (spi_dev d) (i2c_preclk d) (i2c_postclk d).

(** Modelled from the spec: the Adafruit_GFX constructor and accessors are
    missing; the constructor stores the size ([int16_t] fields) and starts
    at rotation 0. *)
Definition Adafruit_GFX_new (w h : Z) : Adafruit_GFX :=
  GFX (int16 w) (int16 h) (int16 w) (int16 h) 0.

Definition width (d : Adafruit_MonoOLED) : Z := _width (gfx d).
Definition height (d : Adafruit_MonoOLED) : Z := _height (gfx d).
Definition getRotation (d : Adafruit_MonoOLED) : Z := rotation (gfx d).

(** Modelled from the spec: Adafruit_GFX::setRotation is missing; the
    rotation is kept in 0-3 and the logical size is the physical size, with
    width and height exchanged for the odd rotations. *)
Definition gfx_setRotation (g : Adafruit_GFX) (r : Z) : Adafruit_GFX :=
  let r := Z.land r 3 in
  match r with
  | 1 | 3 => GFX (WIDTH g) (HEIGHT g) (HEIGHT g) (WIDTH g) r
  | _ => GFX (WIDTH g) (HEIGHT g) (WIDTH g) (HEIGHT g) r
  end.

Definition setRotation (d : Adafruit_MonoOLED) (r : Z) : Adafruit_MonoOLED :=
  set_gfx d (gfx_setRotation (gfx d) r).

(** Constructor for I2C-interfaced displays; [spi_dev], which it does not
    name, starts as NULL (see the SPI constructors below). *)
Definition MonoOLED_i2c (w h : Z) (twi : option TwoWire) (rst_pin : Z)
    (clkDuring clkAfter : Z) : Adafruit_MonoOLED :=
  MonoOLED (Adafruit_GFX_new w h) None (-1) (-1) rst_pin twi None None
           clkDuring clkAfter.

(** Constructor for software (bitbang) SPI.
    Modelled from the spec: the class declaration (Adafruit_MonoOLED.h) is
    missing; the members this constructor does not name ([buffer],
    [_theWire], [i2c_dev]) start as NULL and the I2C clock rates at their
    defaults of 400 kHz and 100 kHz. *)
Definition MonoOLED_soft_spi (w h : Z) (mosi_pin sclk_pin dc_pin rst_pin cs_pin : Z)
    : Adafruit_MonoOLED :=
  MonoOLED (Adafruit_GFX_new w h) None dc_pin cs_pin rst_pin None None
           (Some (SoftSPI cs_pin sclk_pin (-1) mosi_pin 1000000))
           400000 100000.

(** Constructor for native hardware SPI (bit order and mode are fixed to
    MSB first, mode 0); unnamed members as above. *)
Definition MonoOLED_hw_spi (w h : Z) (spi : SPIClass) (dc_pin rst_pin cs_pin : Z)
    (bitrate : Z) : Adafruit_MonoOLED :=
  MonoOLED (Adafruit_GFX_new w h) None dc_pin cs_pin rst_pin None None
           (Some (HardSPI cs_pin bitrate spi))
           400000 100000.

(** ** Raw framebuffer access *)

(** [buffer[i]] as an rvalue; [None] outside the block. *)
Definition buf_get (b : list Z) (i : Z) : option Z :=
  if 0 <=? i then b !! Z.to_nat i else None.

(** [buffer[i] op= m]: read, combine, store back as [uint8_t]. *)
Definition buf_update (f : Z -> Z) (b : list Z) (i : Z) : option (list Z) :=
  match buf_get b i with
  | Some v => Some (<[Z.to_nat i := uint8 (f v)]> b)
  | None => None
  end.

(** Number of bytes of the framebuffer: [WIDTH * ((HEIGHT + 7) / 8)]. *)
Definition buffer_size (d : Adafruit_MonoOLED) : Z :=
  WIDTH (gfx d) * ((HEIGHT (gfx d) + 7) ÷ 8).

(** [memset(p, 0, n)] on a block [b]. *)
Definition memset0 (b : list Z) (n : Z) : option (list Z) :=
  if n <? 0 then None
  else if n <=? Z.of_nat (length b)
       then Some (replicate (Z.to_nat n) 0 ++ drop (Z.to_nat n) b)
       else None.

(** ** Drawing functions *)

(** Color codes, with the values the documentation of [invertDisplay]
    gives them: MONOOLED_BLACK (value 0), MONOOLED_WHITE (value 1). *)
Definition MONOOLED_BLACK : Z := 0.
Definition MONOOLED_WHITE : Z := 1.

(** The test [(x >= 0) && (x < width()) && (y >= 0) && (y < height())]. *)
Definition in_bounds (d : Adafruit_MonoOLED) (x y : Z) : bool :=
  (x >=? 0) && (x <? width d) && (y >=? 0) && (y <? height d).

(** The [switch (getRotation())] block shared verbatim by [drawPixel] and
    [getPixel]; [x] and [y] are [int16_t] variables. *)
Definition rotate_coords (d : Adafruit_MonoOLED) (x y : Z) : Z * Z :=
  match getRotation d with
  | 1 =>
      let '(x, y) := monooled_swap x y in
      let x := int16 (WIDTH (gfx d) - x - 1) in
      (x, y)
  | 2 =>
      let x := int16 (WIDTH (gfx d) - x - 1) in
      let y := int16 (HEIGHT (gfx d) - y - 1) in
      (x, y)
  | 3 =>
      let '(x, y) := monooled_swap x y in
      let y := int16 (HEIGHT (gfx d) - y - 1) in
      (x, y)
  | _ => (x, y)
  end.

(** Index [x + (y / 8) * WIDTH] and mask [1 << (y & 7)] of a raw pixel. *)
Definition pixel_index (d : Adafruit_MonoOLED) (x y : Z) : Z :=
  x + (y ÷ 8) * WIDTH (gfx d).

Definition pixel_mask (y : Z) : Z := Z.shiftl 1 (Z.land y 7).

Section Drawing.

(** [MONOOLED_INVERSE] comes from the class header, which is not among the
    sources; as a [case] label it differs from the other two. *)
Variable MONOOLED_INVERSE : Z.

Definition drawPixel (d : Adafruit_MonoOLED) (x y : Z) (color : Z)
    : option Adafruit_MonoOLED :=
  if in_bounds d x y then
    let '(x, y) := rotate_coords d x y in
    let store f :=
      match buffer d with
      | Some b =>
          match buf_update f b (pixel_index d x y) with
          | Some b' => Some (set_buffer d (Some b'))
          | None => None
          end
      | None => None
      end in
    if color =? MONOOLED_WHITE then
      store (fun v => Z.lor v (pixel_mask y))
    else if color =? MONOOLED_BLACK then
      store (fun v => Z.land v (Z.lnot (pixel_mask y)))
    else if color =? MONOOLED_INVERSE then
      store (fun v => Z.lxor v (pixel_mask y))
    else Some d
  else Some d.

End Drawing.

Definition clearDisplay (d : Adafruit_MonoOLED) : option Adafruit_MonoOLED :=
  match buffer d with
  | Some b =>
      match memset0 b (buffer_size d) with
      | Some b' => Some (set_buffer d (Some b'))
      | None => None
      end
  | None => None
  end.

Definition getPixel (d : Adafruit_MonoOLED) (x y : Z) : option bool :=
  if in_bounds d x y then
    let '(x, y) := rotate_coords d x y in
    match buffer d with
    | Some b =>
        match buf_get b (pixel_index d x y) with
        | Some v => Some (negb (Z.land v (pixel_mask y) =? 0))
        | None => None
        end
    | None => None
    end
  else Some false.

Definition getBuffer (d : Adafruit_MonoOLED) : option (list Z) := buffer d.

(** ** Command monad for the hardware-facing routines *)

(** What a function hands back: a [bool], or nothing at all ([return;]). *)
Inductive RetVal := RetBool (b : bool) | RetNothing.

(** Control after a statement: fall through, leave the function, or
    undefined behaviour (NULL dereference, access outside a block). *)
Inductive Flow (A : Type) :=
| Next (a : A)
| Returned (r : RetVal)
| Undefined.
Arguments Next {A} a.
Arguments Returned {A} r.
Arguments Undefined {A}.

Record Machine := Mach { obj : Adafruit_MonoOLED; trace : list Event }.

Definition Cmd (A : Type) : Type := Machine -> Flow A * Machine.

Definition skip : Cmd unit := fun m => (Next tt, m).
Definition pure {A} (a : A) : Cmd A := fun m => (Next a, m).
Definition return_ {A} (r : RetVal) : Cmd A := fun m => (Returned r, m).
Definition undefined {A} : Cmd A := fun m => (Undefined, m).

Definition bind {A B} (c : Cmd A) (k : A -> Cmd B) : Cmd B :=
  fun m =>
    match c m with
    | (Next a, m') => k a m'
    | (Returned r, m') => (Returned r, m')
    | (Undefined, m') => (Undefined, m')
    end.

Declare Scope cmd_scope.
Delimit Scope cmd_scope with cmd.
Notation "x <- c ; k" := (bind c (fun x => k))
  (at level 20, c at level 100, k at level 200, only parsing) : cmd_scope.
Notation "c ;; k" := (bind c (fun _ => k))
  (at level 100, k at level 200, only parsing, right associativity) : cmd_scope.

Definition this : Cmd Adafruit_MonoOLED := fun m => (Next (obj m), m).
Definition assign (f : Adafruit_MonoOLED -> Adafruit_MonoOLED) : Cmd unit :=
  fun m => (Next tt, Mach (f (obj m)) (trace m)).
Definition emit (e : Event) : Cmd unit :=
  fun m => (Next tt, Mach (obj m) (trace m ++ [e])).

(** Run a pixel routine inside a command. *)
Definition on_buffer (f : Adafruit_MonoOLED -> option Adafruit_MonoOLED)
    : Cmd unit :=
  fun m =>
    match f (obj m) with
    | Some d => (Next tt, Mach d (trace m))
    | None => (Undefined, m)
    end.

(** Platform primitives. *)
Definition pinMode (pin : Z) (dir : PinDirection) : Cmd unit :=
  emit (EvPinMode pin dir).
Definition digitalWrite (pin : Z) (level : PinLevel) : Cmd unit :=
  emit (EvDigitalWrite pin level).
Definition delay (ms : Z) : Cmd unit := emit (EvDelay ms).

Section Hardware.

Variable w : World.

Local Open Scope cmd_scope.

Definition malloc (size : Z) : Cmd (option (list Z)) :=
  emit (EvMalloc size);; pure (w_malloc w size).

Definition new_I2CDevice (addr : Z) (wire : TwoWire)
    : Cmd (option Adafruit_I2CDevice) :=
  emit (EvNewI2C addr wire);;
  pure (if w_new_i2c w then Some (I2CDevice addr wire) else None).

Definition i2c_begin (dev : Adafruit_I2CDevice) : Cmd bool :=
  emit (EvI2CBegin dev);; pure (w_i2c_begin w dev).

(** [spi_dev->begin()] through a possibly NULL pointer that has already been
    tested by the caller. *)
Definition spi_begin (dev : Adafruit_SPIDevice) : Cmd bool :=
  emit (EvSPIBegin dev);; pure (w_spi_begin w dev).

Definition i2c_write (dev : Adafruit_I2CDevice) (data : list Z) (stop : bool)
    (prefix : list Z) : Cmd bool :=
  emit (EvI2CWrite dev data stop prefix);;
  pure (w_i2c_write w dev data stop prefix).

(** [spi_dev->write(p, len)]; the result is not looked at by any caller. *)
Definition spi_write (dev : option Adafruit_SPIDevice) (data : list Z)
    : Cmd unit :=
  match dev with
  | Some sd => emit (EvSPIWrite sd data)
  | None => undefined
  end.

(** The [n] bytes at [c]; leaving the table is undefined. *)
Definition read_bytes (c : list Z) (n : nat) : Cmd (list Z) :=
  if (n <=? length c)%nat then pure (take n c) else undefined.

(** Issue single command byte to OLED. *)
Definition oled_command (c : Z) : Cmd unit :=
  d <- this;
  match i2c_dev d with
  | Some dev =>
      _ <- i2c_write dev [0; c] true [];
      skip
  | None =>
      digitalWrite (dcPin d) LOW;;
      spi_write (spi_dev d) [c]
  end.

(** The loop [while (n--) { b = pgm_read_byte(c++); spi_dev->write(&b, 1); }]. *)
Fixpoint spi_stream (dev : option Adafruit_SPIDevice) (c : list Z) (n : nat)
    {struct n} : Cmd unit :=
  match n with
  | O => skip
  | S n' =>
      match c with
      | b :: c' => spi_write dev [b];; spi_stream dev c' n'
      | [] => undefined
      end
  end.

(** Issue list of commands to MonoOLED; [n] is the [uint8_t] count. *)
Definition oled_commandList (c : list Z) (n : nat) : Cmd unit :=
  d <- this;
  match i2c_dev d with
  | Some dev =>
      data <- read_bytes c n;
      ok <- i2c_write dev data true [0];
      if negb ok then return_ (RetBool false) else skip
  | None =>
      digitalWrite (dcPin d) LOW;;
      spi_stream (spi_dev d) c n
  end;;
  return_ (RetBool true).

(** Allocate RAM for image buffer, initialize peripherals and pins. *)
Definition _init (addr : Z) (reset : bool) : Cmd unit :=
  d <- this;
  match buffer d with
  | None =>
      p <- malloc (buffer_size d);
      assign (fun d => set_buffer d p);;
      match p with
      | None => return_ (RetBool false)
      | Some _ => skip
      end
  | Some _ => skip
  end;;
  d <- this;
  match _theWire d with
  | Some wire =>
      dev <- new_I2CDevice addr wire;
      assign (fun d => set_i2c_dev d dev);;
      match dev with
      | None => return_ (RetBool false)
      | Some dv =>
          ok <- i2c_begin dv;
          if negb ok then return_ (RetBool false) else skip
      end
  | None =>
      match spi_dev d with
      | None => return_ RetNothing
      | Some sd =>
          ok <- spi_begin sd;
          if negb ok then return_ RetNothing else skip
      end;;
      pinMode (dcPin d) OUTPUT
  end;;
  on_buffer clearDisplay;;
  d <- this;
  (if reset && (rstPin d >=? 0) then
     pinMode (rstPin d) OUTPUT;;
     digitalWrite (rstPin d) HIGH;;
     delay 1;;
     digitalWrite (rstPin d) LOW;;
     delay 10;;
     digitalWrite (rstPin d) HIGH;;
     delay 10
   else skip);;
  return_ (RetBool true).

End Hardware.

(** Calling a function on an object with an empty trace: the value handed
    back (if the call is defined), the object afterwards and the calls made. *)
Definition call (body : Cmd unit) (d : Adafruit_MonoOLED)
    : option RetVal * Adafruit_MonoOLED * list Event :=
  match body (Mach d []) with
  | (Next _, m) => (Some RetNothing, obj m, trace m)
  | (Returned r, m) => (Some r, obj m, trace m)
  | (Undefined, m) => (None, obj m, trace m)
  end.

(** ** Invariants and specification-side definitions *)

(** The base-class state is consistent: sizes are [int16_t] values and the
    logical size follows the rotation. *)
Definition gfx_ok (g : Adafruit_GFX) : Prop :=
  is_int16 (WIDTH g) /\ is_int16 (HEIGHT g) /\
  (((rotation g = 0 \/ rotation g = 2) /\
    _width g = WIDTH g /\ _height g = HEIGHT g) \/
   ((rotation g = 1 \/ rotation g = 3) /\
    _width g = HEIGHT g /\ _height g = WIDTH g)).

(** The framebuffer is allocated with the size [_init] asks for, and holds
    [uint8_t] values. *)
Definition allocated (d : Adafruit_MonoOLED) : Prop :=
  exists b, buffer d = Some b /\
            Z.of_nat (length b) = buffer_size d /\
            Forall is_uint8 b.

Definition wf (d : Adafruit_MonoOLED) : Prop :=
  gfx_ok (gfx d) /\ allocated d.

(** The rotation transform as the specification words it: an ordinary swap
    and unbounded integer arithmetic. *)
Definition spec_transform (r W H x y : Z) : Z * Z :=
  match r with
  | 1 => let '(x, y) := (y, x) in (W - x - 1, y)
  | 2 => (W - x - 1, H - y - 1)
  | 3 => let '(x, y) := (y, x) in (x, H - y - 1)
  | _ => (x, y)
  end.

(** The tri-state pixel color of the specification, its code in the
    [uint16_t color] argument, and its effect on the stored bit. *)
Inductive PixelColor := OFF | ON | INVERT.

Definition color_code (inverse : Z) (c : PixelColor) : Z :=
  match c with
  | OFF => MONOOLED_BLACK
  | ON => MONOOLED_WHITE
  | INVERT => inverse
  end.

Definition spec_bit (c : PixelColor) (old : bool) : bool :=
  match c with
  | OFF => false
  | ON => true
  | INVERT => negb old
  end.

(** The read-modify-write applied to the addressed byte for each color. *)
Definition color_update (c : PixelColor) (mask v : Z) : Z :=
  match c with
  | OFF => Z.land v (Z.lnot mask)
  | ON => Z.lor v mask
  | INVERT => Z.lxor v mask
  end.

(** The reset pulse of [_init] on pin [rst]. *)
Definition reset_pulse (rst : Z) : list Event :=
  [EvPinMode rst OUTPUT;
   EvDigitalWrite rst HIGH; EvDelay 1;
   EvDigitalWrite rst LOW; EvDelay 10;
   EvDigitalWrite rst HIGH; EvDelay 10].

Definition is_pin_write (e : Event) : bool :=
  match e with
  | EvDigitalWrite _ _ => true
  | _ => false
  end.

Definition is_delay (e : Event) : bool :=
  match e with
  | EvDelay _ => true
  | _ => false
  end.

(** Ceiling of [a / b] for positive [b]. *)
Definition ceil_div (a b : Z) : Z := - ((- a) / b).

(** The framebuffer step of [_init] goes through: a block of the right size
    is already there, or [malloc] hands one out. *)
Definition alloc_succeeds (w : World) (d : Adafruit_MonoOLED) : bool :=
  match buffer d with
  | Some b => Z.of_nat (length b) =? buffer_size d
  | None =>
      match w_malloc w (buffer_size d) with
      | Some b => Z.of_nat (length b) =? buffer_size d
      | None => false
      end
  end.

(** The transport step of [_init] goes through: the I2C device is created
    and answers, or the SPI device exists and opens. *)
Definition transport_opens (w : World) (d : Adafruit_MonoOLED) (addr : Z) : bool :=
  match _theWire d with
  | Some wire => w_new_i2c w && w_i2c_begin w (I2CDevice addr wire)
  | None =>
      match spi_dev d with
      | Some sd => w_spi_begin w sd
      | None => false
      end
  end.

(** The calls [_init] makes before it clears the framebuffer, when both
    steps above go through. *)
Definition bringup_calls (d : Adafruit_MonoOLED) (addr : Z) : list Event :=
  match buffer d with
  | None => [EvMalloc (buffer_size d)]
  | Some _ => []
  end ++
  match _theWire d with
  | Some wire => [EvNewI2C addr wire; EvI2CBegin (I2CDevice addr wire)]
  | None =>
      match spi_dev d with
      | Some sd => [EvSPIBegin sd; EvPinMode (dcPin d) OUTPUT]
      | None => []
      end
  end.

(** Events that drive a pin or wait. *)
Definition is_pulse_event (e : Event) : bool := is_pin_write e || is_delay e.

(** A display brought up over I2C, used in the examples below. *)
Definition quiet_world : World :=
  {| w_malloc := fun n => if n <? 0 then None else Some (replicate (Z.to_nat n) 255);
     w_new_i2c := true;
     w_i2c_begin := fun _ => true;
     w_spi_begin := fun _ => true;
     w_i2c_write := fun _ _ _ _ => true |}.

(** The same platform, with an SPI transport that does not open. *)
Definition spi_down_world : World :=
  {| w_malloc := w_malloc quiet_world;
     w_new_i2c := true;
     w_i2c_begin := fun _ => true;
     w_spi_begin := fun _ => false;
     w_i2c_write := fun _ _ _ _ => true |}.

Definition demo_i2c : Adafruit_MonoOLED :=
  MonoOLED_i2c 128 64 (Some (Wire 0)) 4 400000 100000.

Definition demo_spi : Adafruit_MonoOLED :=
  MonoOLED_soft_spi 128 64 11 13 9 (-1) 10.

(** A small 8x16 display with an all-ones framebuffer. *)
Definition demo_small : Adafruit_MonoOLED :=
  set_buffer (MonoOLED_i2c 8 16 (Some (Wire 0)) (-1) 400000 100000)
             (Some (replicate 16 255)).

(** [demo_i2c] after a bring-up on the quiet platform. *)
Definition demo_i2c_up : Adafruit_MonoOLED :=
  snd (fst (call (_init quiet_world 60 true) demo_i2c)).

(** A five-byte command table. *)
Definition demo_table : list Z := [174; 213; 128; 168; 63].

(** The value of [MONOOLED_INVERSE] used in the examples. *)
Definition demo_inverse : Z := 2.

(** ** Other hardware settings *)

(** A call to a value-returning member from inside another member: the
    callee's [return] ends the callee only, and its value goes to the
    caller. *)
Definition invoke (body : Cmd unit) : Cmd RetVal :=
  fun m =>
    match body m with
    | (Next _, m') => (Next RetNothing, m')
    | (Returned r, m') => (Next r, m')
    | (Undefined, m') => (Undefined, m')
    end.

Section Settings.

Variable w : World.

(** Opcodes from the class header, which is not among the sources; they are
    narrowed to [uint8_t] where the code passes or stores them. *)
Variables MONOOLED_INVERTDISPLAY MONOOLED_NORMALDISPLAY MONOOLED_SETCONTRAST : Z.

Local Open Scope cmd_scope.

(** Enable or disable display invert mode. *)
Definition invertDisplay (i : bool) : Cmd unit :=
  oled_command w
    (uint8 (if i then MONOOLED_INVERTDISPLAY else MONOOLED_NORMALDISPLAY)).

(** [uint8_t cmd[] = {MONOOLED_SETCONTRAST, level}; oled_commandList(cmd, 2);]
    with [level] a [uint8_t]; the result of the call is dropped.  The table
    lives in RAM: the SPI branch of [oled_commandList] reads it through
    [pgm_read_byte], which this model takes to read the same memory. *)
Definition setContrast (level : Z) : Cmd unit :=
  _ <- invoke (oled_commandList w [uint8 MONOOLED_SETCONTRAST; level] 2);
  skip.

End Settings.

(** ** Further specification-side definitions *)

Definition is_gpio (e : Event) : bool :=
  match e with
  | EvPinMode _ _ | EvDigitalWrite _ _ | EvDelay _ => true
  | _ => false
  end.




(** The object a successful bring-up leaves behind. *)
Definition bringup_result (d : Adafruit_MonoOLED) (addr : Z) : Adafruit_MonoOLED :=
  set_buffer
    match _theWire d with
    | Some wire => set_i2c_dev d (Some (I2CDevice addr wire))
    | None => d
    end
    (Some (replicate (Z.to_nat (buffer_size d)) 0)).

(** The inverse of the rotation transform: the logical coordinate that
    lands on the raw coordinate [(a, b)]. *)
Definition unrotate (r W H a b : Z) : Z * Z :=
  match r with
  | 1 => (b, W - a - 1)
  | 2 => (W - a - 1, H - b - 1)
  | 3 => (H - b - 1, a)
  | _ => (a, b)
  end.

(** Unfolds the command monad down to pairs of control flow and machine. *)
Ltac unfold_cmd :=
  unfold call, _init, oled_commandList, oled_command, bind, this, malloc,
    new_I2CDevice, i2c_begin, spi_begin, i2c_write, spi_write, read_bytes,
    assign, emit, pure, skip, return_, undefined, on_buffer, pinMode,
    digitalWrite, delay, clearDisplay.

(** ** Machine-integer lemmas *)

Lemma int16_id z : is_int16 z -> int16 z = z.
Proof.
  unfold is_int16, int16. intros Hz.
  rewrite Z.mod_small by lia. lia.
Qed.

Lemma lxor_bound a b :
  0 <= a < 2 ^ 15 -> 0 <= b < 2 ^ 15 -> 0 <= Z.lxor a b < 2 ^ 15.
Proof.
  intros Ha Hb.
  assert (Hnn : 0 <= Z.lxor a b) by (apply Z.lxor_nonneg; lia).
  split; [exact Hnn|].
  destruct (Z.eq_dec (Z.lxor a b) 0) as [E|E]; [rewrite E; lia|].
  apply Z.log2_lt_pow2; [lia|].
  pose proof (Z.log2_lxor a b ltac:(lia) ltac:(lia)) as Hl.
  assert (La : Z.log2 a < 15).
  { destruct (Z.eq_dec a 0) as [->|]; [reflexivity|].
    apply Z.log2_lt_pow2; lia. }
  assert (Lb : Z.log2 b < 15).
  { destruct (Z.eq_dec b 0) as [->|]; [reflexivity|].
    apply Z.log2_lt_pow2; lia. }
  lia.
Qed.

(** On non-negative [int16_t] values the XOR swap is a swap. *)
Lemma monooled_swap_swaps a b :
  0 <= a <= 32767 -> 0 <= b <= 32767 -> monooled_swap a b = (b, a).
Proof.
  intros Ha Hb. unfold monooled_swap.
  assert (Hx : int16 (Z.lxor a b) = Z.lxor a b).
  { apply int16_id. pose proof (lxor_bound a b). unfold is_int16. lia. }
  rewrite Hx.
  assert (Hb' : Z.lxor b (Z.lxor a b) = a).
  { rewrite (Z.lxor_comm a b), <- Z.lxor_assoc, Z.lxor_nilpotent.
    apply Z.lxor_0_l. }
  rewrite Hb', (int16_id a) by (unfold is_int16; lia).
  assert (Ha' : Z.lxor (Z.lxor a b) a = b).
  { rewrite (Z.lxor_comm a b), Z.lxor_assoc, Z.lxor_nilpotent.
    apply Z.lxor_0_r. }
  rewrite Ha', (int16_id b) by (unfold is_int16; lia).
  reflexivity.
Qed.

Lemma land7_range y : 0 <= Z.land y 7 < 8.
Proof.
  change 7 with (Z.ones 3). rewrite Z.land_ones by lia.
  apply Z.mod_pos_bound. reflexivity.
Qed.

Lemma pixel_mask_testbit y j :
  0 <= j -> Z.testbit (pixel_mask y) j = (j =? Z.land y 7).
Proof.
  intros Hj. unfold pixel_mask.
  rewrite Z.shiftl_1_l, Z.pow2_bits_eqb by apply land7_range.
  apply Z.eqb_sym.
Qed.

Lemma uint8_testbit z j :
  Z.testbit (uint8 z) j = (j <? 8) && Z.testbit z j.
Proof.
  unfold uint8. change 256 with (2 ^ 8).
  apply Z.testbit_mod_pow2. lia.
Qed.

Lemma uint8_range z : is_uint8 (uint8 z).
Proof. unfold is_uint8, uint8. apply Z.mod_pos_bound. reflexivity. Qed.

Lemma byte_testbit_high v j : is_uint8 v -> 8 <= j -> Z.testbit v j = false.
Proof.
  intros Hv Hj.
  rewrite <- (Z.mod_small v 256) by exact Hv.
  fold (uint8 v). rewrite uint8_testbit.
  destruct (Z.ltb_spec j 8); [lia | reflexivity].
Qed.

(** Bit [j] of the byte stored by [buffer[i] op= mask]. *)
Lemma color_update_testbit c y v j :
  is_uint8 v -> 0 <= j ->
  Z.testbit (uint8 (color_update c (pixel_mask y) v)) j =
  if j =? Z.land y 7 then spec_bit c (Z.testbit v j) else Z.testbit v j.
Proof.
  intros Hv Hj. rewrite uint8_testbit.
  pose proof (land7_range y) as Hk.
  destruct (Z.ltb_spec j 8) as [Hlt|Hge]; simpl.
  - destruct c; simpl.
    + rewrite Z.land_spec, Z.lnot_spec, pixel_mask_testbit by lia.
      destruct (j =? Z.land y 7), (Z.testbit v j); reflexivity.
    + rewrite Z.lor_spec, pixel_mask_testbit by lia.
      destruct (j =? Z.land y 7), (Z.testbit v j); reflexivity.
    + rewrite Z.lxor_spec, pixel_mask_testbit by lia.
      destruct (j =? Z.land y 7), (Z.testbit v j); reflexivity.
  - rewrite (byte_testbit_high v j) by assumption.
    destruct (Z.eqb_spec j (Z.land y 7)); [lia | reflexivity].
Qed.

(** ** Coordinates *)

Lemma in_bounds_true d x y :
  in_bounds d x y = true <-> (0 <= x < width d /\ 0 <= y < height d).
Proof.
  unfold in_bounds. rewrite !andb_true_iff, !Z.geb_le, !Z.ltb_lt. lia.
Qed.

Lemma in_bounds_false d x y :
  in_bounds d x y = false <->
  (x < 0 \/ x >= width d \/ y < 0 \/ y >= height d).
Proof.
  rewrite <- not_true_iff_false, in_bounds_true. lia.
Qed.

(** In bounds, the code's transform (XOR swap, [int16_t] stores) is the
    specification's. *)
Lemma rotate_coords_spec d x y :
  gfx_ok (gfx d) -> in_bounds d x y = true ->
  rotate_coords d x y =
  spec_transform (getRotation d) (WIDTH (gfx d)) (HEIGHT (gfx d)) x y.
Proof.
  intros (HW & HH & Hrot) Hin. apply in_bounds_true in Hin.
  unfold width, height in Hin. unfold rotate_coords, getRotation, is_int16 in *.
  destruct Hrot as [([-> | ->] & Hw & Hh) | ([-> | ->] & Hw & Hh)];
    rewrite Hw, Hh in Hin; cbn -[monooled_swap int16 Z.sub].
  - reflexivity.
  - rewrite !int16_id by (unfold is_int16; lia). reflexivity.
  - rewrite monooled_swap_swaps by lia.
    rewrite int16_id by (unfold is_int16; lia). reflexivity.
  - rewrite monooled_swap_swaps by lia.
    rewrite int16_id by (unfold is_int16; lia). reflexivity.
Qed.

(** The transformed coordinate lies in the unrotated physical frame. *)
Lemma spec_transform_range d x y x' y' :
  gfx_ok (gfx d) -> in_bounds d x y = true ->
  spec_transform (getRotation d) (WIDTH (gfx d)) (HEIGHT (gfx d)) x y = (x', y') ->
  0 <= x' < WIDTH (gfx d) /\ 0 <= y' < HEIGHT (gfx d).
Proof.
  intros (HW & HH & Hrot) Hin. apply in_bounds_true in Hin.
  unfold width, height in Hin. unfold getRotation.
  destruct Hrot as [([-> | ->] & Hw & Hh) | ([-> | ->] & Hw & Hh)];
    rewrite Hw, Hh in Hin; simpl; intros [= <- <-]; lia.
Qed.

(** A raw coordinate of the physical frame indexes inside the block. *)
Lemma pixel_index_range W H x y :
  0 <= x < W -> 0 <= y < H ->
  0 <= x + (y ÷ 8) * W < W * ((H + 7) ÷ 8).
Proof.
  intros Hx Hy.
  rewrite !Z.quot_div_nonneg by lia.
  assert (Hq : 0 <= y / 8 <= (H + 7) / 8 - 1).
  { split; [apply Z.div_pos; lia|].
    assert (y / 8 < (H + 7) / 8); [|lia].
    apply Z.div_lt_upper_bound; [lia|].
    pose proof (Z.mul_div_le (H + 7) 8 ltac:(lia)).
    pose proof (Z.mod_pos_bound (H + 7) 8 ltac:(lia)).
    pose proof (Z.div_mod (H + 7) 8 ltac:(lia)). lia. }
  nia.
Qed.

Lemma buf_get_in_range (b : list Z) i :
  0 <= i < Z.of_nat (length b) -> exists v, buf_get b i = Some v /\ b !! Z.to_nat i = Some v.
Proof.
  intros Hi. unfold buf_get.
  destruct (Z.leb_spec 0 i); [|lia].
  destruct (lookup_lt_is_Some_2 b (Z.to_nat i)) as [v Hv]; [lia|].
  exists v. split; exact Hv.
Qed.

(** ** Pixel routines on a well-formed object *)

Lemma set_buffer_same d b : buffer d = Some b -> set_buffer d (Some b) = d.
Proof. destruct d; simpl; intros ->; reflexivity. Qed.

Lemma set_buffer_twice d b1 b2 :
  set_buffer (set_buffer d b1) b2 = set_buffer d b2.
Proof. reflexivity. Qed.

Lemma wf_set_buffer d b i v :
  wf d -> buffer d = Some b -> is_uint8 v ->
  wf (set_buffer d (Some (<[i := v]> b))).
Proof.
  intros [Hg (b0 & Hb0 & Hlen & Hall)] Hb Hv.
  rewrite Hb in Hb0. injection Hb0 as <-.
  split; [exact Hg|].
  exists (<[i := v]> b). simpl. split; [reflexivity|].
  split.
  - rewrite length_insert. exact Hlen.
  - apply Forall_insert; assumption.
Qed.

(** The byte addressed by an in-bounds pixel exists in the block. *)
Lemma pixel_byte_exists d x y x' y' b :
  wf d -> in_bounds d x y = true ->
  spec_transform (getRotation d) (WIDTH (gfx d)) (HEIGHT (gfx d)) x y = (x', y') ->
  buffer d = Some b ->
  exists v, buf_get b (pixel_index d x' y') = Some v /\
            b !! Z.to_nat (pixel_index d x' y') = Some v /\
            is_uint8 v /\
            (Z.to_nat (pixel_index d x' y') < length b)%nat.
Proof.
  intros [Hg (b0 & Hb0 & Hlen & Hall)] Hin Htr Hb.
  rewrite Hb in Hb0. injection Hb0 as <-.
  destruct (spec_transform_range d x y x' y' Hg Hin Htr) as [Hx Hy].
  pose proof (pixel_index_range _ _ _ _ Hx Hy) as Hi.
  fold (pixel_index d x' y') in Hi. fold (buffer_size d) in Hi.
  destruct (buf_get_in_range b (pixel_index d x' y')) as (v & Hv1 & Hv2); [lia|].
  assert (Hv : is_uint8 v) by exact (Forall_lookup_1 _ _ _ _ Hall Hv2).
  exists v. split; [exact Hv1|]. split; [exact Hv2|]. split; [exact Hv|]. lia.
Qed.

Lemma getPixel_in_bounds d x y x' y' b :
  wf d -> in_bounds d x y = true ->
  spec_transform (getRotation d) (WIDTH (gfx d)) (HEIGHT (gfx d)) x y = (x', y') ->
  buffer d = Some b ->
  exists v, b !! Z.to_nat (pixel_index d x' y') = Some v /\
            getPixel d x y = Some (Z.testbit v (Z.land y' 7)).
Proof.
  intros Hwf Hin Htr Hb.
  destruct (pixel_byte_exists d x y x' y' b Hwf Hin Htr Hb) as (v & Hg & Hl & Hv & _).
  exists v. split; [exact Hl|].
  unfold getPixel. rewrite Hin, (rotate_coords_spec d x y (proj1 Hwf) Hin), Htr, Hb, Hg.
  f_equal.
  pose proof (land7_range y') as Hk.
  destruct (Z.testbit v (Z.land y' 7)) eqn:Hbit.
  - apply negb_true_iff, Z.eqb_neq. intros Hz.
    assert (Hc : Z.testbit (Z.land v (pixel_mask y')) (Z.land y' 7) = true).
    { rewrite Z.land_spec, pixel_mask_testbit, Hbit, Z.eqb_refl by lia. reflexivity. }
    rewrite Hz, Z.bits_0 in Hc. discriminate.
  - apply negb_false_iff, Z.eqb_eq, Z.bits_inj'. intros j Hj.
    rewrite Z.land_spec, pixel_mask_testbit, Z.bits_0 by lia.
    destruct (Z.eqb_spec j (Z.land y' 7)) as [->|]; [rewrite Hbit|];
      auto using andb_false_r.
Qed.

(** With 16-bit operands, the index and size expressions stay far inside a
    32-bit [int]. *)
Lemma int_arith_fits W H x y :
  is_int16 W -> is_int16 H -> is_int16 x -> is_int16 y ->
  - 2 ^ 31 <= x + (y ÷ 8) * W < 2 ^ 31 /\
  - 2 ^ 31 <= W * ((H + 7) ÷ 8) < 2 ^ 31.
Proof.
  unfold is_int16. intros HW HH Hx Hy.
  assert (Hq : -4096 <= y ÷ 8 <= 4095).
  { Z.to_euclidean_division_equations. lia. }
  assert (Hr : -4096 <= (H + 7) ÷ 8 <= 4096).
  { Z.to_euclidean_division_equations. lia. }
  change (2 ^ 31) with 2147483648. split; nia.
Qed.

Lemma buffer_size_ceil d :
  0 <= HEIGHT (gfx d) ->
  buffer_size d = WIDTH (gfx d) * ceil_div (HEIGHT (gfx d)) 8.
Proof.
  intros HH. unfold buffer_size, ceil_div. f_equal.
  rewrite Z.quot_div_nonneg by lia.
  pose proof (Z.div_mod (HEIGHT (gfx d) + 7) 8 ltac:(lia)).
  pose proof (Z.mod_pos_bound (HEIGHT (gfx d) + 7) 8 ltac:(lia)).
  pose proof (Z.div_mod (- HEIGHT (gfx d)) 8 ltac:(lia)).
  pose proof (Z.mod_pos_bound (- HEIGHT (gfx d)) 8 ltac:(lia)).
  lia.
Qed.

Section PixelProperties.

Variable MONOOLED_INVERSE : Z.
Hypothesis inverse_not_black : MONOOLED_INVERSE <> MONOOLED_BLACK.
Hypothesis inverse_not_white : MONOOLED_INVERSE <> MONOOLED_WHITE.

(** [drawPixel] in bounds, for any value of [color]. *)
Lemma drawPixel_in_bounds_raw color d x y x' y' b :
  wf d -> in_bounds d x y = true ->
  spec_transform (getRotation d) (WIDTH (gfx d)) (HEIGHT (gfx d)) x y = (x', y') ->
  buffer d = Some b ->
  exists v, b !! Z.to_nat (pixel_index d x' y') = Some v /\
            is_uint8 v /\
            (Z.to_nat (pixel_index d x' y') < length b)%nat /\
            let store c :=
              Some (set_buffer d (Some (<[Z.to_nat (pixel_index d x' y') :=
                      uint8 (color_update c (pixel_mask y') v)]> b))) in
            drawPixel MONOOLED_INVERSE d x y color =
            if color =? MONOOLED_WHITE then store ON
            else if color =? MONOOLED_BLACK then store OFF
            else if color =? MONOOLED_INVERSE then store INVERT
            else Some d.
Proof using Type.
  intros Hwf Hin Htr Hb.
  destruct (pixel_byte_exists d x y x' y' b Hwf Hin Htr Hb) as (v & Hg & Hl & Hv & Hlt).
  exists v. split; [exact Hl|]. split; [exact Hv|]. split; [exact Hlt|].
  unfold drawPixel.
  rewrite Hin, (rotate_coords_spec d x y (proj1 Hwf) Hin), Htr, Hb.
  unfold buf_update. rewrite Hg. reflexivity.
Qed.

(** What [drawPixel] stores for each of the three colors, in bounds. *)
Lemma drawPixel_in_bounds c d x y x' y' b :
  wf d -> in_bounds d x y = true ->
  spec_transform (getRotation d) (WIDTH (gfx d)) (HEIGHT (gfx d)) x y = (x', y') ->
  buffer d = Some b ->
  exists v, b !! Z.to_nat (pixel_index d x' y') = Some v /\
            is_uint8 v /\
            (Z.to_nat (pixel_index d x' y') < length b)%nat /\
            drawPixel MONOOLED_INVERSE d x y (color_code MONOOLED_INVERSE c) =
            Some (set_buffer d (Some (<[Z.to_nat (pixel_index d x' y') :=
                     uint8 (color_update c (pixel_mask y') v)]> b))).
Proof using inverse_not_black inverse_not_white.
  intros Hwf Hin Htr Hb.
  destruct (drawPixel_in_bounds_raw (color_code MONOOLED_INVERSE c)
              d x y x' y' b Hwf Hin Htr Hb) as (v & Hl & Hv & Hlt & Hd).
  exists v. split; [exact Hl|]. split; [exact Hv|]. split; [exact Hlt|].
  rewrite Hd. destruct c; simpl.
  - reflexivity.
  - reflexivity.
  - destruct (Z.eqb_spec MONOOLED_INVERSE MONOOLED_WHITE); [contradiction|].
    destruct (Z.eqb_spec MONOOLED_INVERSE MONOOLED_BLACK); [contradiction|].
    rewrite Z.eqb_refl. reflexivity.
Qed.

Lemma drawPixel_out_of_bounds d x y color :
  in_bounds d x y = false -> drawPixel MONOOLED_INVERSE d x y color = Some d.
Proof using Type. intros H. unfold drawPixel. rewrite H. reflexivity. Qed.

Lemma getPixel_out_of_bounds d x y :
  in_bounds d x y = false -> getPixel d x y = Some false.
Proof using Type. intros H. unfold getPixel. rewrite H. reflexivity. Qed.

(** Reading back the pixel just written sees the bit the color asks for. *)
Lemma drawPixel_then_getPixel c d x y x' y' b v :
  wf d -> in_bounds d x y = true ->
  spec_transform (getRotation d) (WIDTH (gfx d)) (HEIGHT (gfx d)) x y = (x', y') ->
  buffer d = Some b ->
  b !! Z.to_nat (pixel_index d x' y') = Some v ->
  getPixel (set_buffer d (Some (<[Z.to_nat (pixel_index d x' y') :=
              uint8 (color_update c (pixel_mask y') v)]> b))) x y =
  Some (spec_bit c (Z.testbit v (Z.land y' 7))).
Proof using Type.
  intros Hwf Hin Htr Hb Hv.
  pose proof (lookup_lt_Some _ _ _ Hv) as Hlt.
  assert (Hu : is_uint8 v).
  { destruct Hwf as [_ (b0 & Hb0 & _ & Hall)]. rewrite Hb in Hb0.
    injection Hb0 as <-. exact (Forall_lookup_1 _ _ _ _ Hall Hv). }
  set (new := uint8 (color_update c (pixel_mask y') v)).
  set (i := Z.to_nat (pixel_index d x' y')) in *.
  set (d' := set_buffer d (Some (<[i := new]> b))).
  assert (Hwf' : wf d') by (apply wf_set_buffer; [exact Hwf | exact Hb | apply uint8_range]).
  destruct (getPixel_in_bounds d' x y x' y' (<[i := new]> b) Hwf' Hin Htr eq_refl)
    as (v' & Hv' & Hget).
  change (pixel_index d' x' y') with (pixel_index d x' y') in Hv'.
  fold i in Hv'. rewrite list_lookup_insert_eq in Hv' by exact Hlt.
  injection Hv' as <-. rewrite Hget. f_equal.
  unfold new. rewrite color_update_testbit, Z.eqb_refl; auto.
  apply land7_range.
Qed.

Lemma pixel_index_div d x y :
  0 <= y -> pixel_index d x y = x + (y / 8) * WIDTH (gfx d).
Proof using Type.
  intros Hy. unfold pixel_index. rewrite Z.quot_div_nonneg by lia. reflexivity.
Qed.

(** The buffer left by [drawPixel] depends on the rotation only through the
    raw coordinate: (0,0) under rotation 2 and (W-1,H-1) under rotation 0
    address the same byte and bit. *)
Lemma rotation_2_origin_is_far_corner d color :
  gfx_ok (gfx d) ->
  buffer <$> drawPixel MONOOLED_INVERSE (setRotation d 2) 0 0 color =
  buffer <$> drawPixel MONOOLED_INVERSE (setRotation d 0)
               (WIDTH (gfx d) - 1) (HEIGHT (gfx d) - 1) color.
Proof using Type.
  intros (HW & HH & _). unfold is_int16 in *.
  destruct d as [[W H w_ h_ r] buf dc cs rst wire i2c spi pre post].
  simpl in *.
  unfold drawPixel, in_bounds, rotate_coords, getRotation, width, height,
    pixel_index; simpl.
  destruct (Z.ltb_spec 0 W) as [HWp|HWn]; simpl.
  2:{ destruct (Z.geb_spec (W - 1) 0); [lia|]. reflexivity. }
  destruct (Z.ltb_spec 0 H) as [HHp|HHn]; simpl.
  2:{ destruct (Z.geb_spec (H - 1) 0); [lia|].
      rewrite andb_false_r. reflexivity. }
  destruct (Z.geb_spec (W - 1) 0); [|lia].
  destruct (Z.ltb_spec (W - 1) W); [|lia].
  destruct (Z.geb_spec (H - 1) 0); [|lia].
  destruct (Z.ltb_spec (H - 1) H); [|lia]. simpl.
  replace (W - 0 - 1) with (W - 1) by lia.
  replace (H - 0 - 1) with (H - 1) by lia.
  rewrite !int16_id by (unfold is_int16; lia).
  destruct (color =? MONOOLED_WHITE); [|destruct (color =? MONOOLED_BLACK);
    [|destruct (color =? MONOOLED_INVERSE)]];
    destruct buf as [b|]; try reflexivity;
    match goal with |- context [buf_update ?f b ?i] =>
      destruct (buf_update f b i); reflexivity end.
Qed.

(** C2: for an in-bounds coordinate under any rotation, [drawPixel] with one
    of the three colors rewrites the byte at index [x' + (y'/8)*W] only,
    where [(x',y')] is the coordinate transformed as the specification
    says, and in that byte only bit [y' & 7] can change (set for ON, cleared
    for OFF, flipped for INVERT); moreover (0,0) under rotation 2 and
    (W-1,H-1) under rotation 0 leave the same buffer. *)
Theorem drawPixel_updates_rotated_bit c d x y x' y' :
  wf d -> in_bounds d x y = true ->
  spec_transform (getRotation d) (WIDTH (gfx d)) (HEIGHT (gfx d)) x y = (x', y') ->
  (exists b old new,
      buffer d = Some b /\
      b !! Z.to_nat (x' + (y' / 8) * WIDTH (gfx d)) = Some old /\
      drawPixel MONOOLED_INVERSE d x y (color_code MONOOLED_INVERSE c) =
        Some (set_buffer d
                (Some (<[Z.to_nat (x' + (y' / 8) * WIDTH (gfx d)) := new]> b))) /\
      forall j, 0 <= j ->
        Z.testbit new j =
        if j =? Z.land y' 7 then spec_bit c (Z.testbit old j)
        else Z.testbit old j) /\
  (forall color,
      buffer <$> drawPixel MONOOLED_INVERSE (setRotation d 2) 0 0 color =
      buffer <$> drawPixel MONOOLED_INVERSE (setRotation d 0)
                   (WIDTH (gfx d) - 1) (HEIGHT (gfx d) - 1) color).
Proof using inverse_not_black inverse_not_white.
  intros Hwf Hin Htr. split.
  - destruct (proj2 Hwf) as (b & Hb & _).
    destruct (drawPixel_in_bounds c d x y x' y' b Hwf Hin Htr Hb)
      as (v & Hl & Hv & _ & Hd).
    destruct (spec_transform_range d x y x' y' (proj1 Hwf) Hin Htr) as [_ Hy].
    rewrite pixel_index_div in Hl, Hd by lia.
    exists b, v, (uint8 (color_update c (pixel_mask y') v)).
    split; [exact Hb|]. split; [exact Hl|]. split; [exact Hd|].
    intros j Hj. apply color_update_testbit; assumption.
  - intros color. apply rotation_2_origin_is_far_corner, Hwf.
Qed.

(** C3: in bounds, under any rotation, writing ON and reading the same
    coordinate back gives true, and writing OFF and reading back gives
    false. *)
Theorem drawPixel_then_getPixel_on_off d x y :
  wf d -> in_bounds d x y = true ->
  (exists d1, drawPixel MONOOLED_INVERSE d x y MONOOLED_WHITE = Some d1 /\
              getPixel d1 x y = Some true) /\
  (exists d0, drawPixel MONOOLED_INVERSE d x y MONOOLED_BLACK = Some d0 /\
              getPixel d0 x y = Some false).
Proof using Type.
  intros Hwf Hin.
  destruct (proj2 Hwf) as (b & Hb & _).
  destruct (spec_transform (getRotation d) (WIDTH (gfx d)) (HEIGHT (gfx d)) x y)
    as [x' y'] eqn:Htr.
  split.
  - destruct (drawPixel_in_bounds_raw MONOOLED_WHITE d x y x' y' b Hwf Hin Htr Hb)
      as (v & Hl & _ & _ & Hd).
    cbv zeta in Hd. rewrite Z.eqb_refl in Hd.
    eexists. split; [exact Hd|].
    rewrite (drawPixel_then_getPixel ON d x y x' y' b v) by assumption.
    reflexivity.
  - destruct (drawPixel_in_bounds_raw MONOOLED_BLACK d x y x' y' b Hwf Hin Htr Hb)
      as (v & Hl & _ & _ & Hd).
    cbv zeta in Hd.
    change (MONOOLED_BLACK =? MONOOLED_WHITE) with false in Hd.
    rewrite Z.eqb_refl in Hd.
    eexists. split; [exact Hd|].
    rewrite (drawPixel_then_getPixel OFF d x y x' y' b v) by assumption.
    reflexivity.
Qed.

(** C4: for any coordinate and rotation, two consecutive [drawPixel] calls
    with the INVERSE color give back the object, framebuffer included, as
    it was. *)
Theorem drawPixel_inverse_twice d x y :
  wf d ->
  drawPixel MONOOLED_INVERSE d x y MONOOLED_INVERSE ≫=
    (fun d1 => drawPixel MONOOLED_INVERSE d1 x y MONOOLED_INVERSE) = Some d.
Proof using inverse_not_black inverse_not_white.
  intros Hwf.
  destruct (in_bounds d x y) eqn:Hin.
  2:{ rewrite drawPixel_out_of_bounds by exact Hin. simpl.
      apply drawPixel_out_of_bounds, Hin. }
  destruct (proj2 Hwf) as (b & Hb & _).
  destruct (spec_transform (getRotation d) (WIDTH (gfx d)) (HEIGHT (gfx d)) x y)
    as [x' y'] eqn:Htr.
  destruct (drawPixel_in_bounds INVERT d x y x' y' b Hwf Hin Htr Hb)
    as (v & Hl & Hv & Hlt & Hd).
  simpl color_code in Hd. rewrite Hd. cbn [mbind option_bind].
  set (i := Z.to_nat (pixel_index d x' y')) in *.
  set (n1 := uint8 (color_update INVERT (pixel_mask y') v)) in *.
  set (d1 := set_buffer d (Some (<[i := n1]> b))).
  assert (Hwf1 : wf d1) by (apply wf_set_buffer; [exact Hwf | exact Hb | apply uint8_range]).
  destruct (drawPixel_in_bounds INVERT d1 x y x' y' (<[i := n1]> b) Hwf1 Hin Htr eq_refl)
    as (v1 & Hl1 & _ & _ & Hd1).
  change (pixel_index d1 x' y') with (pixel_index d x' y') in Hl1, Hd1.
  fold i in Hl1, Hd1.
  rewrite list_lookup_insert_eq in Hl1 by exact Hlt. injection Hl1 as <-.
  simpl color_code in Hd1. rewrite Hd1.
  unfold d1. rewrite set_buffer_twice, list_insert_insert_eq.
  assert (Hback : uint8 (color_update INVERT (pixel_mask y') n1) = v).
  { apply Z.bits_inj'. intros j Hj.
    rewrite color_update_testbit; [|unfold n1; apply uint8_range|exact Hj].
    unfold n1. rewrite color_update_testbit by assumption.
    destruct (j =? Z.land y' 7); simpl; [apply negb_involutive | reflexivity]. }
  rewrite Hback, list_insert_id by exact Hl.
  f_equal. apply set_buffer_same, Hb.
Qed.

(** C5: for a coordinate outside the current logical frame
    ([x < 0], [x >= width()], [y < 0] or [y >= height()]), under any
    rotation and for any color, [getPixel] answers false and [drawPixel]
    leaves the object, hence every byte of the framebuffer, as it was. *)
Theorem out_of_bounds_is_ignored d x y color :
  x < 0 \/ x >= width d \/ y < 0 \/ y >= height d ->
  getPixel d x y = Some false /\
  drawPixel MONOOLED_INVERSE d x y color = Some d.
Proof using Type.
  intros H. apply in_bounds_false in H.
  split; [apply getPixel_out_of_bounds | apply drawPixel_out_of_bounds]; exact H.
Qed.

(** C9: for a coordinate that passes the bounds check, under any rotation,
    the index computed after the rotation transform lies in
    [0, WIDTH * ((HEIGHT + 7) / 8)), which is WIDTH times the ceiling of
    HEIGHT/8 and the size of the allocated block; so [drawPixel] and
    [getPixel] stay inside the block. *)
Theorem in_bounds_index_in_buffer d x y color :
  gfx_ok (gfx d) -> in_bounds d x y = true ->
  (let '(x', y') := rotate_coords d x y in
   0 <= x' + (y' ÷ 8) * WIDTH (gfx d) < WIDTH (gfx d) * ((HEIGHT (gfx d) + 7) ÷ 8)) /\
  WIDTH (gfx d) * ((HEIGHT (gfx d) + 7) ÷ 8) =
    WIDTH (gfx d) * ceil_div (HEIGHT (gfx d)) 8 /\
  (allocated d ->
   is_Some (drawPixel MONOOLED_INVERSE d x y color) /\ is_Some (getPixel d x y)).
Proof using Type.
  intros Hg Hin.
  destruct (spec_transform (getRotation d) (WIDTH (gfx d)) (HEIGHT (gfx d)) x y)
    as [x' y'] eqn:Htr.
  destruct (spec_transform_range d x y x' y' Hg Hin Htr) as [Hx Hy].
  split; [|split].
  - rewrite (rotate_coords_spec d x y Hg Hin), Htr.
    apply pixel_index_range; assumption.
  - apply (buffer_size_ceil d). lia.
  - intros Ha. assert (Hwf : wf d) by (split; assumption).
    destruct Ha as (b & Hb & _). split.
    + destruct (drawPixel_in_bounds_raw color d x y x' y' b Hwf Hin Htr Hb)
        as (v & _ & _ & _ & Hd).
      rewrite Hd. simpl.
      destruct (color =? MONOOLED_WHITE); [eauto|].
      destruct (color =? MONOOLED_BLACK); [eauto|].
      destruct (color =? MONOOLED_INVERSE); eauto.
    + destruct (getPixel_in_bounds d x y x' y' b Hwf Hin Htr Hb) as (v & _ & Hget).
      rewrite Hget. eauto.
Qed.

(** C10: a color value that is none of MONOOLED_WHITE, MONOOLED_BLACK and
    MONOOLED_INVERSE makes [drawPixel] a no-op at every coordinate and
    under every rotation: the object and its framebuffer are unchanged. *)
Theorem drawPixel_unknown_color_is_noop d x y color :
  color <> MONOOLED_WHITE -> color <> MONOOLED_BLACK ->
  color <> MONOOLED_INVERSE ->
  drawPixel MONOOLED_INVERSE d x y color = Some d.
Proof using Type.
  intros Hw Hb Hi. unfold drawPixel.
  destruct (in_bounds d x y); [|reflexivity].
  destruct (rotate_coords d x y) as [x' y'].
  destruct (Z.eqb_spec color MONOOLED_WHITE); [contradiction|].
  destruct (Z.eqb_spec color MONOOLED_BLACK); [contradiction|].
  destruct (Z.eqb_spec color MONOOLED_INVERSE); [contradiction|].
  reflexivity.
Qed.

End PixelProperties.

(** ** The base-class state stays consistent *)

Lemma land3_cases r :
  Z.land r 3 = 0 \/ Z.land r 3 = 1 \/ Z.land r 3 = 2 \/ Z.land r 3 = 3.
Proof.
  change 3 with (Z.ones 2) at 1 2 3 4. rewrite Z.land_ones by lia.
  pose proof (Z.mod_pos_bound r (2 ^ 2) ltac:(lia)). lia.
Qed.

Lemma gfx_setRotation_ok g r :
  is_int16 (WIDTH g) -> is_int16 (HEIGHT g) -> gfx_ok (gfx_setRotation g r).
Proof.
  intros HW HH. unfold gfx_setRotation.
  destruct (land3_cases r) as [E | [E | [E | E]]]; rewrite E; simpl;
    (split; [exact HW|]; split; [exact HH|]); auto 6.
Qed.

Lemma setRotation_wf d r : wf d -> wf (setRotation d r).
Proof.
  intros [(HW & HH & _) Ha]. split.
  - apply gfx_setRotation_ok; assumption.
  - destruct Ha as (b & Hb & Hlen & Hall). exists b.
    unfold setRotation, gfx_setRotation.
    destruct (land3_cases r) as [E | [E | [E | E]]]; rewrite E; auto.
Qed.

Lemma Adafruit_GFX_new_ok w h : gfx_ok (Adafruit_GFX_new w h).
Proof.
  assert (Hr : forall z, is_int16 (int16 z)).
  { intros z. unfold is_int16, int16.
    pose proof (Z.mod_pos_bound (z + 32768) 65536 ltac:(lia)). lia. }
  unfold Adafruit_GFX_new. split; [apply Hr|]. split; [apply Hr|].
  left. simpl. auto.
Qed.

(** ** clearDisplay *)

Lemma memset0_whole b n :
  Z.of_nat (length b) = n -> memset0 b n = Some (replicate (Z.to_nat n) 0).
Proof.
  intros <-. unfold memset0.
  destruct (Z.ltb_spec (Z.of_nat (length b)) 0); [lia|].
  rewrite Z.leb_refl, Nat2Z.id, drop_all, app_nil_r. reflexivity.
Qed.

Lemma clearDisplay_allocated d :
  allocated d ->
  clearDisplay d =
  Some (set_buffer d (Some (replicate (Z.to_nat (buffer_size d)) 0))).
Proof.
  intros (b & Hb & Hlen & _). unfold clearDisplay.
  rewrite Hb, (memset0_whole b _ Hlen). reflexivity.
Qed.

Lemma wf_cleared d :
  gfx_ok (gfx d) -> 0 <= buffer_size d ->
  wf (set_buffer d (Some (replicate (Z.to_nat (buffer_size d)) 0))).
Proof.
  intros Hg Hs. split; [exact Hg|].
  eexists. split; [reflexivity|]. split.
  - rewrite length_replicate. unfold buffer_size in *. simpl. lia.
  - apply Forall_replicate. unfold is_uint8. lia.
Qed.

Lemma getPixel_zero_buffer d n x y :
  wf d -> buffer d = Some (replicate n 0) ->
  in_bounds d x y = true -> getPixel d x y = Some false.
Proof.
  intros Hwf Hb Hin.
  destruct (spec_transform (getRotation d) (WIDTH (gfx d)) (HEIGHT (gfx d)) x y)
    as [x' y'] eqn:Htr.
  destruct (getPixel_in_bounds d x y x' y' _ Hwf Hin Htr Hb) as (v & Hv & Hget).
  apply lookup_replicate_1 in Hv as [-> _].
  rewrite Hget, Z.bits_0. reflexivity.
Qed.

(** C6: after [clearDisplay] the framebuffer is [WIDTH * ((HEIGHT+7)/8)]
    zero bytes (that is, width times the ceiling of height/8), and
    [getPixel] answers false at every in-bounds coordinate, under the
    current rotation and under any rotation set afterwards. *)
Theorem clearDisplay_zeroes_everything d :
  wf d ->
  exists d',
    clearDisplay d = Some d' /\
    buffer d' = Some (replicate (Z.to_nat (buffer_size d)) 0) /\
    (0 <= HEIGHT (gfx d) ->
     buffer_size d = WIDTH (gfx d) * ceil_div (HEIGHT (gfx d)) 8) /\
    (forall x y, in_bounds d' x y = true -> getPixel d' x y = Some false) /\
    (forall r x y, in_bounds (setRotation d' r) x y = true ->
                   getPixel (setRotation d' r) x y = Some false).
Proof.
  intros [Hg Ha].
  assert (Hs : 0 <= buffer_size d).
  { destruct Ha as (b & _ & Hlen & _). lia. }
  pose proof (wf_cleared d Hg Hs) as Hwf'.
  eexists. split; [apply clearDisplay_allocated, Ha|].
  split; [reflexivity|]. split; [apply buffer_size_ceil|]. split.
  - intros x y. eapply getPixel_zero_buffer; [exact Hwf' | reflexivity].
  - intros r x y. eapply getPixel_zero_buffer;
      [apply setRotation_wf, Hwf' | reflexivity].
Qed.

(** ** Bring-up *)

(** A bring-up whose allocation and transport steps go through returns
    true, leaves a zeroed framebuffer, and has made the bring-up calls
    followed by the reset pulse if one was asked for. *)
Lemma init_succeeds w d addr reset :
  alloc_succeeds w d = true -> transport_opens w d addr = true ->
  exists d',
    call (_init w addr reset) d =
      (Some (RetBool true), d',
       bringup_calls d addr ++
       (if reset && (rstPin d >=? 0) then reset_pulse (rstPin d) else [])) /\
    buffer d' = Some (replicate (Z.to_nat (buffer_size d)) 0) /\
    gfx d' = gfx d.
Proof.
  intros Ha Ht.
  destruct d as [g buf dc cs rst wire i2c spi pre post].
  unfold alloc_succeeds, transport_opens, bringup_calls, buffer_size in *.
  simpl in *. unfold_cmd. simpl.
  destruct buf as [b|]; [|destruct (w_malloc w _) as [b|]; [|discriminate]];
    apply Z.eqb_eq in Ha; simpl;
    (destruct wire as [wr|];
     [apply andb_true_iff in Ht as [Hn Hb]; rewrite Hn; simpl; rewrite Hb
     |destruct spi as [sd|]; [rewrite Ht|discriminate]]);
    simpl; unfold buffer_size; simpl; rewrite (memset0_whole b _ Ha); simpl;
    destruct reset; simpl; try destruct (rst >=? 0); simpl;
    eexists; (split; [reflexivity|split; reflexivity]).
Qed.

(** Without a reset request, or without a reset pin, no pin is written,
    whatever the outcome of the bring-up. *)
Lemma init_without_reset w d addr reset :
  reset = false \/ rstPin d < 0 ->
  forallb (fun e => negb (is_pin_write e))
          (snd (call (_init w addr reset) d)) = true.
Proof.
  intros Hr.
  assert (Hc : reset && (rstPin d >=? 0) = false).
  { destruct Hr as [-> | Hr]; [reflexivity|].
    destruct (Z.geb_spec (rstPin d) 0); [lia|]. apply andb_false_r. }
  destruct d as [g buf dc cs rst wire i2c spi pre post]. simpl in *.
  unfold_cmd. simpl.
  destruct buf as [b|]; [|destruct (w_malloc w _) as [b|]]; simpl; try reflexivity;
    (destruct wire as [wr|];
     [destruct (w_new_i2c w); simpl; [destruct (w_i2c_begin w _)|]
     |destruct spi as [sd|]; [destruct (w_spi_begin w sd)|]]);
    simpl; try reflexivity;
    destruct (memset0 b _); simpl; try reflexivity;
    rewrite Hc; reflexivity.
Qed.

Lemma bringup_calls_quiet d addr :
  forallb (fun e => negb (is_pulse_event e)) (bringup_calls d addr) = true.
Proof.
  unfold bringup_calls.
  destruct (buffer d), (_theWire d), (spi_dev d); reflexivity.
Qed.

(** A successful bring-up of a freshly constructed object establishes the
    invariant the pixel routines rely on. *)
Lemma init_establishes_wf w d addr reset :
  gfx_ok (gfx d) -> buffer d = None ->
  alloc_succeeds w d = true -> transport_opens w d addr = true ->
  exists d' tr, call (_init w addr reset) d = (Some (RetBool true), d', tr) /\ wf d'.
Proof.
  intros Hg Hb Ha Ht.
  destruct (init_succeeds w d addr reset Ha Ht) as (d' & Hcall & Hbuf & Hgfx).
  exists d'. eexists. split; [exact Hcall|].
  unfold alloc_succeeds in Ha. rewrite Hb in Ha.
  destruct (w_malloc w (buffer_size d)) as [b|] eqn:Hm; [|discriminate].
  apply Z.eqb_eq in Ha.
  split; [rewrite Hgfx; exact Hg|].
  eexists. split; [exact Hbuf|].
  assert (Hsz : buffer_size d' = buffer_size d)
    by (unfold buffer_size; rewrite Hgfx; reflexivity).
  split.
  - rewrite length_replicate, Hsz. lia.
  - apply Forall_replicate. unfold is_uint8. lia.
Qed.

(** C1 (the code departs from the claim): on an SPI-bound display whose
    transport does not open, [_init] leaves through [return;] and hands
    back no value, where the claim asks for a false return. *)
Theorem init_spi_open_failure_returns_no_value :
  call (_init spi_down_world 60 true) demo_spi =
    (Some RetNothing,
     set_buffer demo_spi (Some (replicate 1024 255)),
     [EvMalloc 1024; EvSPIBegin (SoftSPI 10 13 (-1) 11 1000000)]) /\
  fst (fst (call (_init spi_down_world 60 true) demo_spi)) <>
    Some (RetBool false).
Proof.
  split; [vm_compute; reflexivity | vm_compute; discriminate].
Qed.

(** The same for every SPI-bound object: a failing [begin] never yields a
    [bool]. *)
Lemma init_spi_open_failure w d addr reset sd :
  _theWire d = None -> spi_dev d = Some sd -> w_spi_begin w sd = false ->
  alloc_succeeds w d = true ->
  fst (fst (call (_init w addr reset) d)) = Some RetNothing.
Proof.
  intros Hw Hs Hb Ha.
  destruct d as [g buf dc cs rst wire i2c spi pre post]. simpl in *. subst.
  unfold alloc_succeeds in Ha. simpl in Ha.
  unfold_cmd. simpl.
  destruct buf as [b|]; [|destruct (w_malloc w _) as [b|]; [|discriminate]];
    simpl; rewrite Hb; reflexivity.
Qed.

(** The I2C sibling path does return false when its device does not
    answer. *)
Lemma init_i2c_open_failure w d addr reset wire :
  _theWire d = Some wire ->
  w_new_i2c w && w_i2c_begin w (I2CDevice addr wire) = false ->
  alloc_succeeds w d = true ->
  fst (fst (call (_init w addr reset) d)) = Some (RetBool false).
Proof.
  intros Hw Hb Ha.
  destruct d as [g buf dc cs rst wire' i2c spi pre post]. simpl in *. subst.
  unfold alloc_succeeds in Ha. simpl in Ha.
  unfold_cmd. simpl.
  destruct buf as [b|]; [|destruct (w_malloc w _) as [b|]; [|discriminate]];
    simpl; destruct (w_new_i2c w); simpl in *; try rewrite Hb; reflexivity.
Qed.

(** C7: with a reset request and a non-negative reset pin, a bring-up whose
    allocation and transport open succeed returns true after driving the
    reset pin HIGH, waiting 1 ms, LOW, 10 ms, HIGH, 10 ms, and these are
    its only pin writes and waits; without a reset request, or with a
    negative reset pin (the -1 sentinel), no pin is written at all. *)
Theorem init_reset_pulse w d addr reset :
  (reset = true -> 0 <= rstPin d ->
   alloc_succeeds w d = true -> transport_opens w d addr = true ->
   exists d' tr,
     call (_init w addr reset) d = (Some (RetBool true), d', tr) /\
     tr = bringup_calls d addr ++ reset_pulse (rstPin d) /\
     List.filter is_pulse_event tr =
       [EvDigitalWrite (rstPin d) HIGH; EvDelay 1;
        EvDigitalWrite (rstPin d) LOW; EvDelay 10;
        EvDigitalWrite (rstPin d) HIGH; EvDelay 10]) /\
  (reset = false \/ rstPin d < 0 ->
   forallb (fun e => negb (is_pin_write e))
           (snd (call (_init w addr reset) d)) = true).
Proof.
  split.
  - intros -> Hpin Ha Ht.
    destruct (init_succeeds w d addr true Ha Ht) as (d' & Hcall & _).
    destruct (Z.geb_spec (rstPin d) 0) as [_|]; [|lia]. simpl in Hcall.
    exists d'. eexists. split; [exact Hcall|]. split; [reflexivity|].
    rewrite List.filter_app.
    assert (Hq : List.filter is_pulse_event (bringup_calls d addr) = []).
    { unfold bringup_calls.
      destruct (buffer d), (_theWire d), (spi_dev d); reflexivity. }
    rewrite Hq. reflexivity.
  - apply init_without_reset.
Qed.

(** ** Command dispatch *)

Lemma spi_stream_run sd c n m :
  (n <= length c)%nat ->
  spi_stream (Some sd) c n m =
  (Next tt, Mach (obj m)
                 (trace m ++ map (fun b => EvSPIWrite sd [b]) (take n c))).
Proof.
  revert c m. induction n as [|n IH]; intros c m Hn.
  - destruct m as [o tr]. cbn [spi_stream]. unfold skip. simpl.
    rewrite app_nil_r. reflexivity.
  - destruct c as [|b c]; [simpl in Hn; lia|].
    simpl in Hn. cbn [spi_stream]. unfold bind, spi_write, emit.
    rewrite IH by lia. simpl. rewrite <- app_assoc. reflexivity.
Qed.

(** C8: over I2C, a table of [n] command bytes goes out as one transport
    write that carries all [n] bytes behind the one-byte prefix 0x00, and
    the function returns what that write returned (false exactly when it
    failed); over SPI the function returns true. *)
Theorem commandList_dispatch w d c n :
  (n <= length c)%nat ->
  (forall dev, i2c_dev d = Some dev ->
     call (oled_commandList w c n) d =
       (Some (RetBool (w_i2c_write w dev (take n c) true [0])), d,
        [EvI2CWrite dev (take n c) true [0]])) /\
  (forall sd, i2c_dev d = None -> spi_dev d = Some sd ->
     call (oled_commandList w c n) d =
       (Some (RetBool true), d,
        EvDigitalWrite (dcPin d) LOW ::
        map (fun b => EvSPIWrite sd [b]) (take n c))).
Proof.
  intros Hn. split.
  - intros dev Hdev. unfold_cmd. simpl. rewrite Hdev.
    destruct (Nat.leb_spec n (length c)); [|lia]. simpl.
    destruct (w_i2c_write w dev (take n c) true [0]); reflexivity.
  - intros sd Hnone Hsd. unfold call, oled_commandList, bind, this. simpl.
    rewrite Hnone. unfold digitalWrite, emit. simpl.
    rewrite Hsd, spi_stream_run by exact Hn. reflexivity.
Qed.

(** ** Worked examples *)

Lemma demo_small_wf : wf demo_small.
Proof.
  split.
  - apply Adafruit_GFX_new_ok.
  - exists (replicate 16 255). split; [reflexivity|]. split; [reflexivity|].
    apply Forall_replicate. unfold is_uint8. lia.
Qed.

Lemma demo_inverse_distinct :
  demo_inverse <> MONOOLED_BLACK /\ demo_inverse <> MONOOLED_WHITE.
Proof. split; discriminate. Qed.

(** Rotation 1 on the 8x16 display: (3,2) lands in byte 5, bit 3. *)
Example draw_rotated_black :
  buffer <$> drawPixel demo_inverse (setRotation demo_small 1) 3 2 MONOOLED_BLACK =
  Some (Some [255; 255; 255; 255; 255; 247; 255; 255;
              255; 255; 255; 255; 255; 255; 255; 255]).
Proof. reflexivity. Qed.

(** The scenario of the specification: 128x64 over I2C at 0x3C, reset on
    pin 4. *)
Example bringup_scenario :
  snd (call (_init quiet_world 60 true) demo_i2c) =
  [EvMalloc 1024; EvNewI2C 60 (Wire 0); EvI2CBegin (I2CDevice 60 (Wire 0));
   EvPinMode 4 OUTPUT; EvDigitalWrite 4 HIGH; EvDelay 1;
   EvDigitalWrite 4 LOW; EvDelay 10; EvDigitalWrite 4 HIGH; EvDelay 10].
Proof. vm_compute. reflexivity. Qed.

Lemma drawPixel_updates_rotated_bit_witness :
  exists b old new,
    buffer (setRotation demo_small 1) = Some b /\
    b !! Z.to_nat (5 + (3 / 8) * WIDTH (gfx (setRotation demo_small 1))) = Some old /\
    drawPixel demo_inverse (setRotation demo_small 1) 3 2
      (color_code demo_inverse INVERT) =
      Some (set_buffer (setRotation demo_small 1)
              (Some (<[Z.to_nat (5 + (3 / 8) * WIDTH (gfx (setRotation demo_small 1))) := new]> b))) /\
    forall j, 0 <= j ->
      Z.testbit new j =
      if j =? Z.land 3 7 then spec_bit INVERT (Z.testbit old j)
      else Z.testbit old j.
Proof.
  apply (drawPixel_updates_rotated_bit demo_inverse
           (proj1 demo_inverse_distinct) (proj2 demo_inverse_distinct)
           INVERT (setRotation demo_small 1) 3 2 5 3).
  - apply setRotation_wf, demo_small_wf.
  - reflexivity.
  - reflexivity.
Defined.

Lemma drawPixel_then_getPixel_on_off_witness :
  (exists d1, drawPixel demo_inverse (setRotation demo_small 3) 9 7 MONOOLED_WHITE = Some d1 /\
              getPixel d1 9 7 = Some true) /\
  (exists d0, drawPixel demo_inverse (setRotation demo_small 3) 9 7 MONOOLED_BLACK = Some d0 /\
              getPixel d0 9 7 = Some false).
Proof.
  apply (drawPixel_then_getPixel_on_off demo_inverse (setRotation demo_small 3) 9 7).
  - apply setRotation_wf, demo_small_wf.
  - reflexivity.
Defined.

Lemma drawPixel_inverse_twice_witness :
  drawPixel demo_inverse (setRotation demo_small 2) 7 15 demo_inverse ≫=
    (fun d1 => drawPixel demo_inverse d1 7 15 demo_inverse) =
  Some (setRotation demo_small 2).
Proof.
  apply (drawPixel_inverse_twice demo_inverse
           (proj1 demo_inverse_distinct) (proj2 demo_inverse_distinct)).
  apply setRotation_wf, demo_small_wf.
Defined.

Lemma out_of_bounds_is_ignored_witness :
  getPixel (setRotation demo_small 1) 3 8 = Some false /\
  drawPixel demo_inverse (setRotation demo_small 1) 3 8 MONOOLED_WHITE =
    Some (setRotation demo_small 1).
Proof.
  apply (out_of_bounds_is_ignored demo_inverse (setRotation demo_small 1) 3 8
           MONOOLED_WHITE).
  right. right. right. vm_compute. discriminate.
Defined.

Lemma clearDisplay_zeroes_everything_witness :
  exists d',
    clearDisplay demo_small = Some d' /\
    buffer d' = Some (replicate (Z.to_nat (buffer_size demo_small)) 0) /\
    (0 <= HEIGHT (gfx demo_small) ->
     buffer_size demo_small =
     WIDTH (gfx demo_small) * ceil_div (HEIGHT (gfx demo_small)) 8) /\
    (forall x y, in_bounds d' x y = true -> getPixel d' x y = Some false) /\
    (forall r x y, in_bounds (setRotation d' r) x y = true ->
                   getPixel (setRotation d' r) x y = Some false).
Proof.
  apply (clearDisplay_zeroes_everything demo_small).
  exact demo_small_wf.
Defined.

Lemma in_bounds_index_in_buffer_witness :
  (let '(x', y') := rotate_coords (setRotation demo_small 3) 15 7 in
   0 <= x' + (y' ÷ 8) * WIDTH (gfx (setRotation demo_small 3))
     < WIDTH (gfx (setRotation demo_small 3)) *
       ((HEIGHT (gfx (setRotation demo_small 3)) + 7) ÷ 8)) /\
  WIDTH (gfx (setRotation demo_small 3)) *
    ((HEIGHT (gfx (setRotation demo_small 3)) + 7) ÷ 8) =
    WIDTH (gfx (setRotation demo_small 3)) *
    ceil_div (HEIGHT (gfx (setRotation demo_small 3))) 8 /\
  (allocated (setRotation demo_small 3) ->
   is_Some (drawPixel demo_inverse (setRotation demo_small 3) 15 7 MONOOLED_WHITE) /\
   is_Some (getPixel (setRotation demo_small 3) 15 7)).
Proof.
  apply (in_bounds_index_in_buffer demo_inverse (setRotation demo_small 3) 15 7
           MONOOLED_WHITE).
  - apply setRotation_wf, demo_small_wf.
  - reflexivity.
Defined.

Lemma drawPixel_unknown_color_is_noop_witness :
  drawPixel demo_inverse demo_small 3 2 7 = Some demo_small.
Proof.
  apply (drawPixel_unknown_color_is_noop demo_inverse demo_small 3 2 7);
    discriminate.
Defined.

Lemma init_reset_pulse_witness :
  (exists d' tr,
     call (_init quiet_world 60 true) demo_i2c = (Some (RetBool true), d', tr) /\
     tr = bringup_calls demo_i2c 60 ++ reset_pulse (rstPin demo_i2c) /\
     List.filter is_pulse_event tr =
       [EvDigitalWrite (rstPin demo_i2c) HIGH; EvDelay 1;
        EvDigitalWrite (rstPin demo_i2c) LOW; EvDelay 10;
        EvDigitalWrite (rstPin demo_i2c) HIGH; EvDelay 10]) /\
  forallb (fun e => negb (is_pin_write e))
          (snd (call (_init quiet_world 60 true) demo_spi)) = true.
Proof.
  split.
  - apply (proj1 (init_reset_pulse quiet_world demo_i2c 60 true)).
    + reflexivity.
    + simpl. lia.
    + vm_compute. reflexivity.
    + reflexivity.
  - apply (proj2 (init_reset_pulse quiet_world demo_spi 60 true)).
    right. simpl. lia.
Defined.

Lemma commandList_dispatch_witness :
  call (oled_commandList quiet_world demo_table 5) demo_i2c_up =
    (Some (RetBool true), demo_i2c_up,
     [EvI2CWrite (I2CDevice 60 (Wire 0)) demo_table true [0]]) /\
  call (oled_commandList spi_down_world demo_table 5) demo_spi =
    (Some (RetBool true), demo_spi,
     EvDigitalWrite 9 LOW ::
     map (fun b => EvSPIWrite (SoftSPI 10 13 (-1) 11 1000000) [b]) demo_table).
Proof.
  split.
  - apply (proj1 (commandList_dispatch quiet_world demo_i2c_up demo_table 5
                    ltac:(simpl; lia)) (I2CDevice 60 (Wire 0))).
    vm_compute. reflexivity.
  - apply (proj2 (commandList_dispatch spi_down_world demo_spi demo_table 5
                    ltac:(simpl; lia)) (SoftSPI 10 13 (-1) 11 1000000));
      reflexivity.
Defined.

(** ** Further properties of the coordinate transform *)

Lemma lxor_int16 a b : is_int16 a -> is_int16 b -> is_int16 (Z.lxor a b).
Proof.
  unfold is_int16. intros Ha Hb.
  assert (Hnot : forall z, Z.lnot z = - z - 1) by (intros; unfold Z.lnot; lia).
  destruct (Z.lt_ge_cases a 0) as [Han|Hap], (Z.lt_ge_cases b 0) as [Hbn|Hbp].
  - rewrite <- Z.lxor_lnot_lnot.
    pose proof (lxor_bound (Z.lnot a) (Z.lnot b)) as H.
    rewrite !Hnot in *. lia.
  - rewrite <- (Z.lnot_involutive (Z.lxor a b)), Z.lnot_lxor_l.
    pose proof (lxor_bound (Z.lnot a) b) as H.
    rewrite (Hnot (Z.lxor _ _)). rewrite Hnot in *. lia.
  - rewrite <- (Z.lnot_involutive (Z.lxor a b)), Z.lnot_lxor_r.
    pose proof (lxor_bound a (Z.lnot b)) as H.
    rewrite (Hnot (Z.lxor _ _)). rewrite Hnot in *. lia.
  - pose proof (lxor_bound a b). lia.
Qed.

(** X1: the XOR swap macro exchanges any two [int16_t] values, negative
    ones included. *)
Theorem monooled_swap_any_int16 a b :
  is_int16 a -> is_int16 b -> monooled_swap a b = (b, a).
Proof.
  intros Ha Hb. unfold monooled_swap.
  rewrite (int16_id (Z.lxor a b)) by (apply lxor_int16; assumption).
  assert (Hb' : Z.lxor b (Z.lxor a b) = a).
  { rewrite (Z.lxor_comm a b), <- Z.lxor_assoc, Z.lxor_nilpotent.
    apply Z.lxor_0_l. }
  rewrite Hb', (int16_id a) by assumption.
  assert (Ha' : Z.lxor (Z.lxor a b) a = b).
  { rewrite (Z.lxor_comm a b), Z.lxor_assoc, Z.lxor_nilpotent.
    apply Z.lxor_0_r. }
  rewrite Ha', (int16_id b) by assumption.
  reflexivity.
Qed.

Lemma monooled_swap_any_int16_witness : monooled_swap (-7) 300 = (300, -7).
Proof.
  apply (monooled_swap_any_int16 (-7) 300); unfold is_int16; lia.
Defined.

Lemma spec_transform_unrotate d a b :
  gfx_ok (gfx d) ->
  0 <= a < WIDTH (gfx d) -> 0 <= b < HEIGHT (gfx d) ->
  let '(x, y) := unrotate (getRotation d) (WIDTH (gfx d)) (HEIGHT (gfx d)) a b in
  in_bounds d x y = true /\
  spec_transform (getRotation d) (WIDTH (gfx d)) (HEIGHT (gfx d)) x y = (a, b).
Proof.
  intros (HW & HH & Hrot) Ha Hb. unfold getRotation.
  destruct Hrot as [([E | E] & Hw & Hh) | ([E | E] & Hw & Hh)];
    rewrite E; simpl; (split; [apply in_bounds_true; unfold width, height; lia|]);
    f_equal; lia.
Qed.

Lemma spec_transform_inj d x1 y1 x2 y2 :
  spec_transform (getRotation d) (WIDTH (gfx d)) (HEIGHT (gfx d)) x1 y1 =
  spec_transform (getRotation d) (WIDTH (gfx d)) (HEIGHT (gfx d)) x2 y2 ->
  (x1, y1) = (x2, y2).
Proof.
  unfold spec_transform.
  destruct (getRotation d) as [|[p|p|]|]; try (intros [= -> ->]; reflexivity);
    try destruct p as [p|p|]; try (intros [= -> ->]; reflexivity);
    intros [= H1 H2]; f_equal; lia.
Qed.

(** X2: under every rotation the transform of [drawPixel]/[getPixel] is a
    bijection from the logical frame onto the physical WIDTH x HEIGHT
    frame: in-bounds coordinates land inside it, distinct coordinates land
    on distinct raw pixels, and every raw pixel is reached. *)
Theorem rotate_coords_bijection d :
  gfx_ok (gfx d) ->
  (forall x y x' y', in_bounds d x y = true -> rotate_coords d x y = (x', y') ->
     0 <= x' < WIDTH (gfx d) /\ 0 <= y' < HEIGHT (gfx d)) /\
  (forall x1 y1 x2 y2,
     in_bounds d x1 y1 = true -> in_bounds d x2 y2 = true ->
     rotate_coords d x1 y1 = rotate_coords d x2 y2 -> (x1, y1) = (x2, y2)) /\
  (forall a b, 0 <= a < WIDTH (gfx d) -> 0 <= b < HEIGHT (gfx d) ->
     exists x y, in_bounds d x y = true /\ rotate_coords d x y = (a, b)).
Proof.
  intros Hg. split; [|split].
  - intros x y x' y' Hin Hr. rewrite rotate_coords_spec in Hr by assumption.
    eapply spec_transform_range; eassumption.
  - intros x1 y1 x2 y2 H1 H2 Hr.
    rewrite !rotate_coords_spec in Hr by assumption.
    eapply spec_transform_inj, Hr.
  - intros a b Ha Hb.
    pose proof (spec_transform_unrotate d a b Hg Ha Hb) as H.
    destruct (unrotate _ _ _ a b) as [x y]. destruct H as [Hin Ht].
    exists x, y. split; [exact Hin|].
    rewrite rotate_coords_spec by assumption. exact Ht.
Qed.

Lemma rotate_coords_bijection_witness :
  (forall x y x' y',
     in_bounds (setRotation demo_small 1) x y = true ->
     rotate_coords (setRotation demo_small 1) x y = (x', y') ->
     0 <= x' < WIDTH (gfx (setRotation demo_small 1)) /\
     0 <= y' < HEIGHT (gfx (setRotation demo_small 1))) /\
  (forall x1 y1 x2 y2,
     in_bounds (setRotation demo_small 1) x1 y1 = true ->
     in_bounds (setRotation demo_small 1) x2 y2 = true ->
     rotate_coords (setRotation demo_small 1) x1 y1 =
     rotate_coords (setRotation demo_small 1) x2 y2 -> (x1, y1) = (x2, y2)) /\
  (forall a b, 0 <= a < WIDTH (gfx (setRotation demo_small 1)) ->
               0 <= b < HEIGHT (gfx (setRotation demo_small 1)) ->
     exists x y, in_bounds (setRotation demo_small 1) x y = true /\
                 rotate_coords (setRotation demo_small 1) x y = (a, b)).
Proof.
  apply (rotate_coords_bijection (setRotation demo_small 1)).
  apply setRotation_wf, demo_small_wf.
Defined.

(** ** Further properties of the pixel routines *)

Lemma land7_mod y : Z.land y 7 = y mod 8.
Proof. change 7 with (Z.ones 3). apply Z.land_ones. lia. Qed.

(** Two raw pixels of the physical frame share byte and bit only if they
    are the same pixel. *)
Lemma pixel_slot_inj W a1 b1 a2 b2 :
  0 <= a1 < W -> 0 <= a2 < W -> 0 <= b1 -> 0 <= b2 ->
  a1 + (b1 ÷ 8) * W = a2 + (b2 ÷ 8) * W ->
  Z.land b1 7 = Z.land b2 7 ->
  (a1, b1) = (a2, b2).
Proof.
  intros Ha1 Ha2 Hb1 Hb2 Hi Hk.
  rewrite !land7_mod in Hk. rewrite !Z.quot_div_nonneg in Hi by lia.
  pose proof (Z.div_mod b1 8 ltac:(lia)).
  pose proof (Z.div_mod b2 8 ltac:(lia)).
  assert (Hq1 : 0 <= b1 / 8) by (apply Z.div_pos; lia).
  assert (Hq2 : 0 <= b2 / 8) by (apply Z.div_pos; lia).
  assert (Hq : b1 / 8 = b2 / 8) by nia.
  f_equal; [nia | lia].
Qed.

(** Storing at one in-bounds pixel does not change what [getPixel] reads at
    any other coordinate. *)
Lemma getPixel_after_store c d x y a1 b1 b v x2 y2 :
  wf d -> in_bounds d x y = true ->
  spec_transform (getRotation d) (WIDTH (gfx d)) (HEIGHT (gfx d)) x y = (a1, b1) ->
  buffer d = Some b ->
  b !! Z.to_nat (pixel_index d a1 b1) = Some v ->
  (x2, y2) <> (x, y) ->
  getPixel (set_buffer d (Some (<[Z.to_nat (pixel_index d a1 b1) :=
              uint8 (color_update c (pixel_mask b1) v)]> b))) x2 y2 =
  getPixel d x2 y2.
Proof.
  intros Hwf Hin Htr Hb Hv Hne.
  set (n := uint8 (color_update c (pixel_mask b1) v)).
  set (d' := set_buffer d (Some (<[Z.to_nat (pixel_index d a1 b1) := n]> b))).
  destruct (in_bounds d x2 y2) eqn:Hin2.
  2:{ rewrite (getPixel_out_of_bounds d' x2 y2 Hin2).
      rewrite (getPixel_out_of_bounds d x2 y2 Hin2). reflexivity. }
  assert (Hu : is_uint8 v).
  { destruct Hwf as [_ (b0 & Hb0 & _ & Hall)]. rewrite Hb in Hb0.
    injection Hb0 as <-. exact (Forall_lookup_1 _ _ _ _ Hall Hv). }
  assert (Hwf' : wf d')
    by (apply wf_set_buffer; [exact Hwf | exact Hb | apply uint8_range]).
  destruct (spec_transform (getRotation d) (WIDTH (gfx d)) (HEIGHT (gfx d)) x2 y2)
    as [a2 b2] eqn:Htr2.
  destruct (getPixel_in_bounds d x2 y2 a2 b2 b Hwf Hin2 Htr2 Hb) as (v2 & Hv2 & Hg).
  destruct (getPixel_in_bounds d' x2 y2 a2 b2 _ Hwf' Hin2 Htr2 eq_refl)
    as (v2' & Hv2' & Hg').
  change (pixel_index d' a2 b2) with (pixel_index d a2 b2) in Hv2'.
  rewrite Hg, Hg'. f_equal.
  destruct (spec_transform_range d x y a1 b1 (proj1 Hwf) Hin Htr) as [Ha1 Hb1].
  destruct (spec_transform_range d x2 y2 a2 b2 (proj1 Hwf) Hin2 Htr2) as [Ha2 Hb2].
  pose proof (pixel_index_range _ _ _ _ Ha1 Hb1) as Hi1.
  pose proof (pixel_index_range _ _ _ _ Ha2 Hb2) as Hi2.
  fold (pixel_index d a1 b1) in Hi1. fold (pixel_index d a2 b2) in Hi2.
  destruct (Z.eq_dec (pixel_index d a2 b2) (pixel_index d a1 b1)) as [Ei|Ei].
  - rewrite Ei in Hv2, Hv2'.
    rewrite list_lookup_insert_eq in Hv2' by (eapply lookup_lt_Some; exact Hv).
    injection Hv2' as <-. rewrite Hv in Hv2. injection Hv2 as <-.
    unfold n. rewrite color_update_testbit by (auto; apply land7_range).
    destruct (Z.eqb_spec (Z.land b2 7) (Z.land b1 7)) as [Ek|Ek]; [|reflexivity].
    exfalso. apply Hne.
    assert (Hsame : (a2, b2) = (a1, b1)).
    { apply (pixel_slot_inj (WIDTH (gfx d))); try lia. exact Ei. }
    apply (spec_transform_inj d). rewrite Htr, Htr2. exact Hsame.
  - rewrite list_lookup_insert_ne in Hv2' by lia.
    rewrite Hv2 in Hv2'. injection Hv2' as <-. reflexivity.
Qed.

Section PixelExtras.

Variable MONOOLED_INVERSE : Z.
Hypothesis inverse_not_black : MONOOLED_INVERSE <> MONOOLED_BLACK.
Hypothesis inverse_not_white : MONOOLED_INVERSE <> MONOOLED_WHITE.

(** In bounds, [drawPixel] with any color value either stores for one of
    the three colors or does nothing. *)
Lemma drawPixel_cases color d x y x' y' b :
  wf d -> in_bounds d x y = true ->
  spec_transform (getRotation d) (WIDTH (gfx d)) (HEIGHT (gfx d)) x y = (x', y') ->
  buffer d = Some b ->
  exists v, b !! Z.to_nat (pixel_index d x' y') = Some v /\
    (drawPixel MONOOLED_INVERSE d x y color = Some d \/
     exists c, drawPixel MONOOLED_INVERSE d x y color =
       Some (set_buffer d (Some (<[Z.to_nat (pixel_index d x' y') :=
               uint8 (color_update c (pixel_mask y') v)]> b)))).
Proof using Type.
  intros Hwf Hin Htr Hb.
  destruct (drawPixel_in_bounds_raw MONOOLED_INVERSE color d x y x' y' b
              Hwf Hin Htr Hb) as (v & Hl & _ & _ & Hd).
  exists v. split; [exact Hl|]. cbv zeta in Hd. rewrite Hd.
  destruct (color =? MONOOLED_WHITE); [right; exists ON; reflexivity|].
  destruct (color =? MONOOLED_BLACK); [right; exists OFF; reflexivity|].
  destruct (color =? MONOOLED_INVERSE); [right; exists INVERT; reflexivity|].
  left. reflexivity.
Qed.

Lemma drawPixel_on_wf d x y color :
  wf d ->
  exists d' b b',
    drawPixel MONOOLED_INVERSE d x y color = Some d' /\
    buffer d = Some b /\ d' = set_buffer d (Some b') /\
    length b' = length b /\ wf d'.
Proof using Type.
  intros Hwf. destruct (proj2 Hwf) as (b & Hb & _).
  destruct (in_bounds d x y) eqn:Hin.
  2:{ exists d, b, b. rewrite drawPixel_out_of_bounds by exact Hin.
      rewrite set_buffer_same by exact Hb. auto. }
  destruct (spec_transform (getRotation d) (WIDTH (gfx d)) (HEIGHT (gfx d)) x y)
    as [x' y'] eqn:Htr.
  destruct (drawPixel_cases color d x y x' y' b Hwf Hin Htr Hb)
    as (v & Hv & [Hd | (c & Hd)]).
  - exists d, b, b. rewrite set_buffer_same by exact Hb. auto.
  - eexists. exists b. eexists. split; [exact Hd|]. split; [exact Hb|].
    split; [reflexivity|]. split; [apply length_insert|].
    apply wf_set_buffer; [exact Hwf | exact Hb | apply uint8_range].
Qed.

(** X3: on a brought-up display [drawPixel] never leaves defined behaviour,
    whatever the coordinate and the color value; it changes nothing but
    the contents of the framebuffer, whose length stays the same, and the
    object stays well formed. *)
Theorem drawPixel_keeps_object_well_formed d x y color :
  wf d ->
  exists d' b b',
    drawPixel MONOOLED_INVERSE d x y color = Some d' /\
    buffer d = Some b /\ d' = set_buffer d (Some b') /\
    length b' = length b /\ Forall is_uint8 b' /\
    gfx d' = gfx d /\ wf d'.
Proof using Type.
  intros Hwf.
  destruct (drawPixel_on_wf d x y color Hwf)
    as (d' & b & b' & Hd & Hb & Hd' & Hlen & Hwf').
  exists d', b, b'. split; [exact Hd|]. split; [exact Hb|].
  split; [exact Hd'|]. split; [exact Hlen|].
  destruct (proj2 Hwf') as (b0 & Hb0 & _ & Hall).
  rewrite Hd' in Hb0. simpl in Hb0. injection Hb0 as <-.
  split; [exact Hall|]. split; [rewrite Hd'; reflexivity | exact Hwf'].
Qed.

(** X4: [drawPixel] at one coordinate leaves what [getPixel] reads at every
    other coordinate unchanged, for any color value and under any
    rotation. *)
Theorem drawPixel_leaves_other_pixels d x y color d' x2 y2 :
  wf d -> (x2, y2) <> (x, y) ->
  drawPixel MONOOLED_INVERSE d x y color = Some d' ->
  getPixel d' x2 y2 = getPixel d x2 y2.
Proof using Type.
  intros Hwf Hne Hd. destruct (proj2 Hwf) as (b & Hb & _).
  destruct (in_bounds d x y) eqn:Hin.
  2:{ rewrite drawPixel_out_of_bounds in Hd by exact Hin.
      injection Hd as <-. reflexivity. }
  destruct (spec_transform (getRotation d) (WIDTH (gfx d)) (HEIGHT (gfx d)) x y)
    as [x' y'] eqn:Htr.
  destruct (drawPixel_cases color d x y x' y' b Hwf Hin Htr Hb)
    as (v & Hv & [Hd' | (c & Hd')]); rewrite Hd' in Hd; injection Hd as <-.
  - reflexivity.
  - eapply getPixel_after_store; eassumption.
Qed.

(** X5: in bounds, [drawPixel] with MONOOLED_INVERSE makes [getPixel] read
    the opposite of what it read before. *)
Theorem drawPixel_inverse_flips_pixel d x y :
  wf d -> in_bounds d x y = true ->
  exists p d',
    getPixel d x y = Some p /\
    drawPixel MONOOLED_INVERSE d x y MONOOLED_INVERSE = Some d' /\
    getPixel d' x y = Some (negb p).
Proof using inverse_not_black inverse_not_white.
  intros Hwf Hin. destruct (proj2 Hwf) as (b & Hb & _).
  destruct (spec_transform (getRotation d) (WIDTH (gfx d)) (HEIGHT (gfx d)) x y)
    as [x' y'] eqn:Htr.
  destruct (getPixel_in_bounds d x y x' y' b Hwf Hin Htr Hb) as (v & Hv & Hg).
  destruct (drawPixel_in_bounds MONOOLED_INVERSE inverse_not_black
              inverse_not_white INVERT d x y x' y' b Hwf Hin Htr Hb)
    as (v' & Hv' & _ & _ & Hd).
  rewrite Hv in Hv'. injection Hv' as <-.
  eexists. eexists. split; [exact Hg|]. split; [exact Hd|].
  apply (drawPixel_then_getPixel INVERT); assumption.
Qed.

Lemma color_update_overwrite c1 c2 y v :
  is_uint8 v -> c2 <> INVERT ->
  uint8 (color_update c2 (pixel_mask y) (uint8 (color_update c1 (pixel_mask y) v))) =
  uint8 (color_update c2 (pixel_mask y) v).
Proof using Type.
  intros Hv Hc. apply Z.bits_inj'. intros j Hj.
  rewrite !color_update_testbit by (auto using uint8_range).
  destruct (j =? Z.land y 7); [|reflexivity].
  destruct c2; [reflexivity | reflexivity | contradiction].
Qed.

(** X6: the last write wins: after any [drawPixel] at a coordinate, a
    [drawPixel] with MONOOLED_WHITE or MONOOLED_BLACK at the same
    coordinate leaves the object exactly as that write alone would; in
    particular writing the same color twice equals writing it once. *)
Theorem drawPixel_last_write_wins d x y color1 color2 :
  wf d -> color2 = MONOOLED_WHITE \/ color2 = MONOOLED_BLACK ->
  drawPixel MONOOLED_INVERSE d x y color1 ≫=
    (fun d1 => drawPixel MONOOLED_INVERSE d1 x y color2) =
  drawPixel MONOOLED_INVERSE d x y color2.
Proof using Type.
  intros Hwf Hc2. destruct (proj2 Hwf) as (b & Hb & _).
  destruct (in_bounds d x y) eqn:Hin.
  2:{ rewrite !drawPixel_out_of_bounds by exact Hin. simpl.
      apply drawPixel_out_of_bounds, Hin. }
  destruct (spec_transform (getRotation d) (WIDTH (gfx d)) (HEIGHT (gfx d)) x y)
    as [x' y'] eqn:Htr.
  destruct (drawPixel_cases color1 d x y x' y' b Hwf Hin Htr Hb)
    as (v & Hv & [Hd | (c1 & Hd)]); rewrite Hd; cbn [mbind option_bind];
    [reflexivity|].
  pose proof (lookup_lt_Some _ _ _ Hv) as Hlt.
  assert (Hu : is_uint8 v).
  { destruct Hwf as [_ (b0 & Hb0 & _ & Hall)]. rewrite Hb in Hb0.
    injection Hb0 as <-. exact (Forall_lookup_1 _ _ _ _ Hall Hv). }
  set (i := Z.to_nat (pixel_index d x' y')) in *.
  set (n1 := uint8 (color_update c1 (pixel_mask y') v)) in *.
  set (d1 := set_buffer d (Some (<[i := n1]> b))).
  assert (Hwf1 : wf d1)
    by (apply wf_set_buffer; [exact Hwf | exact Hb | apply uint8_range]).
  assert (Hc : exists c2, c2 <> INVERT /\
             forall dd, drawPixel MONOOLED_INVERSE dd x y color2 =
                        drawPixel MONOOLED_INVERSE dd x y
                          (color_code MONOOLED_INVERSE c2)).
  { destruct Hc2 as [-> | ->]; [exists ON | exists OFF]; split;
      (discriminate || reflexivity). }
  destruct Hc as (c2 & Hni & Hcode). rewrite !Hcode.
  destruct (drawPixel_in_bounds_raw MONOOLED_INVERSE
              (color_code MONOOLED_INVERSE c2) d x y x' y' b Hwf Hin Htr Hb)
    as (v0 & Hv0 & _ & _ & Hd0).
  destruct (drawPixel_in_bounds_raw MONOOLED_INVERSE
              (color_code MONOOLED_INVERSE c2) d1 x y x' y' (<[i := n1]> b)
              Hwf1 Hin Htr eq_refl) as (v1 & Hv1 & _ & _ & Hd1).
  change (pixel_index d1 x' y') with (pixel_index d x' y') in Hv1, Hd1.
  fold i in Hv0, Hd0, Hv1, Hd1.
  rewrite Hv in Hv0. injection Hv0 as <-.
  rewrite list_lookup_insert_eq in Hv1 by exact Hlt. injection Hv1 as <-.
  rewrite Hd0, Hd1.
  destruct c2; [|clear Hni|contradiction]; cbv zeta; simpl color_code;
    cbn [Z.eqb MONOOLED_WHITE MONOOLED_BLACK Pos.eqb];
    unfold d1; rewrite set_buffer_twice, list_insert_insert_eq;
    unfold n1; rewrite color_update_overwrite by (assumption || discriminate);
    reflexivity.
Qed.

(** X7: clearing forgets drawing: [clearDisplay] after a [drawPixel] gives
    the object that [clearDisplay] alone gives, and clearing twice is
    clearing once. *)
Theorem clearDisplay_forgets_drawing d x y color :
  wf d ->
  drawPixel MONOOLED_INVERSE d x y color ≫= clearDisplay = clearDisplay d /\
  clearDisplay d ≫= clearDisplay = clearDisplay d.
Proof using Type.
  intros Hwf.
  destruct (drawPixel_on_wf d x y color Hwf)
    as (d' & b & b' & Hd & Hb & -> & Hlen & Hwf').
  rewrite Hd. cbn [mbind option_bind].
  rewrite (clearDisplay_allocated d (proj2 Hwf)).
  rewrite (clearDisplay_allocated _ (proj2 Hwf')).
  split; [reflexivity|]. cbn [mbind option_bind].
  assert (Hs : 0 <= buffer_size d).
  { destruct (proj2 Hwf) as (b0 & _ & Hl & _). lia. }
  rewrite (clearDisplay_allocated _ (proj2 (wf_cleared d (proj1 Hwf) Hs))).
  reflexivity.
Qed.

End PixelExtras.

(** X8: rotation only renames coordinates: what [getPixel] reads at an
    in-bounds [(x, y)] under the current rotation is what it reads under
    rotation 0 at the rotated coordinate, and [drawPixel] leaves the same
    framebuffer either way. *)
Theorem rotation_renames_coordinates inverse d x y color :
  wf d -> in_bounds d x y = true ->
  let '(x', y') := rotate_coords d x y in
  getPixel d x y = getPixel (setRotation d 0) x' y' /\
  buffer <$> drawPixel inverse d x y color =
  buffer <$> drawPixel inverse (setRotation d 0) x' y' color.
Proof.
  intros Hwf Hin. destruct (proj2 Hwf) as (b & Hb & _).
  rewrite (rotate_coords_spec d x y (proj1 Hwf) Hin).
  destruct (spec_transform (getRotation d) (WIDTH (gfx d)) (HEIGHT (gfx d)) x y)
    as [x' y'] eqn:Htr.
  destruct (spec_transform_range d x y x' y' (proj1 Hwf) Hin Htr) as [Hx Hy].
  set (d0 := setRotation d 0).
  assert (Hwf0 : wf d0) by apply setRotation_wf, Hwf.
  assert (Hin0 : in_bounds d0 x' y' = true)
    by (apply in_bounds_true; unfold d0, width, height; simpl; lia).
  assert (Htr0 : spec_transform (getRotation d0) (WIDTH (gfx d0)) (HEIGHT (gfx d0))
                   x' y' = (x', y')) by reflexivity.
  assert (Hb0 : buffer d0 = Some b) by exact Hb.
  split.
  - destruct (getPixel_in_bounds d x y x' y' b Hwf Hin Htr Hb) as (v & Hv & ->).
    destruct (getPixel_in_bounds d0 x' y' x' y' b Hwf0 Hin0 Htr0 Hb0)
      as (v0 & Hv0 & ->).
    change (pixel_index d0 x' y') with (pixel_index d x' y') in Hv0.
    rewrite Hv in Hv0. injection Hv0 as <-. reflexivity.
  - destruct (drawPixel_in_bounds_raw inverse color d x y x' y' b Hwf Hin Htr Hb)
      as (v & Hv & _ & _ & ->).
    destruct (drawPixel_in_bounds_raw inverse color d0 x' y' x' y' b Hwf0 Hin0 Htr0 Hb0)
      as (v0 & Hv0 & _ & _ & ->).
    change (pixel_index d0 x' y') with (pixel_index d x' y') in *.
    rewrite Hv in Hv0. injection Hv0 as <-. cbv zeta.
    destruct (color =? MONOOLED_WHITE); [reflexivity|].
    destruct (color =? MONOOLED_BLACK); [reflexivity|].
    destruct (color =? inverse); [reflexivity|].
    simpl. rewrite Hb. reflexivity.
Qed.

(** ** Further properties of the bring-up *)

Lemma init_succeeds_exactly w d addr reset :
  alloc_succeeds w d = true -> transport_opens w d addr = true ->
  call (_init w addr reset) d =
    (Some (RetBool true), bringup_result d addr,
     bringup_calls d addr ++
     (if reset && (rstPin d >=? 0) then reset_pulse (rstPin d) else [])).
Proof.
  intros Ha Ht.
  destruct d as [g buf dc cs rst wire i2c spi pre post].
  unfold alloc_succeeds, transport_opens, bringup_calls, bringup_result,
    buffer_size in *.
  simpl in *. unfold_cmd. simpl.
  destruct buf as [b|]; [|destruct (w_malloc w _) as [b|]; [|discriminate]];
    apply Z.eqb_eq in Ha; simpl;
    (destruct wire as [wr|];
     [apply andb_true_iff in Ht as [Hn Hb]; rewrite Hn; simpl; rewrite Hb
     |destruct spi as [sd|]; [rewrite Ht|discriminate]]);
    simpl; unfold buffer_size; simpl; rewrite (memset0_whole b _ Ha); simpl;
    destruct reset; simpl; try destruct (rst >=? 0); reflexivity.
Qed.


(** X10: a bring-up that does not return true has touched no pin: no
    [pinMode], no [digitalWrite] and no [delay] has been issued, so the
    display has not been reset. *)
Theorem init_failure_touches_no_pin w d addr reset r :
  fst (fst (call (_init w addr reset) d)) = Some r ->
  r <> RetBool true ->
  forallb (fun e => negb (is_gpio e)) (snd (call (_init w addr reset) d)) = true.
Proof.
  destruct d as [g buf dc cs rst wire i2c spi pre post].
  unfold_cmd. simpl.
  destruct buf as [b|]; [|destruct (w_malloc w _) as [b|]]; simpl;
    try (intros; reflexivity);
    (destruct wire as [wr|];
     [destruct (w_new_i2c w); simpl; [destruct (w_i2c_begin w _)|]
     |destruct spi as [sd|]; [destruct (w_spi_begin w sd)|]]);
    simpl; try (intros; reflexivity);
    destruct (memset0 b _); simpl; try discriminate;
    destruct reset; simpl; try destruct (rst >=? 0); simpl;
    intros [= <-] Hr; contradiction.
Qed.

(** X11: when the framebuffer cannot be allocated, [_init] returns false
    with the object unchanged, and the only call it has made is the
    [malloc]: the transport is not opened and no pin is touched. *)
Theorem init_alloc_failure w d addr reset :
  buffer d = None -> w_malloc w (buffer_size d) = None ->
  call (_init w addr reset) d =
    (Some (RetBool false), d, [EvMalloc (buffer_size d)]).
Proof.
  intros Hb Hm.
  destruct d as [g buf dc cs rst wire i2c spi pre post]. simpl in Hb. subst buf.
  unfold_cmd. simpl. rewrite Hm. reflexivity.
Qed.


(** X13: after a successful bring-up every in-bounds pixel reads false,
    under the current rotation and under any rotation set afterwards. *)
Theorem init_then_all_pixels_off w d addr reset :
  gfx_ok (gfx d) ->
  alloc_succeeds w d = true -> transport_opens w d addr = true ->
  exists d' tr,
    call (_init w addr reset) d = (Some (RetBool true), d', tr) /\
    wf d' /\
    (forall x y, in_bounds d' x y = true -> getPixel d' x y = Some false) /\
    (forall r x y, in_bounds (setRotation d' r) x y = true ->
                   getPixel (setRotation d' r) x y = Some false).
Proof.
  intros Hg Ha Ht.
  assert (Hs : 0 <= buffer_size d).
  { unfold alloc_succeeds in Ha.
    destruct (buffer d); [|destruct (w_malloc w (buffer_size d)); [|discriminate]];
      apply Z.eqb_eq in Ha; lia. }
  assert (Hwf : wf (bringup_result d addr)).
  { unfold bringup_result.
    destruct (_theWire d); [|apply wf_cleared; assumption].
    exact (wf_cleared (set_i2c_dev d _) Hg Hs). }
  exists (bringup_result d addr). eexists.
  split; [apply init_succeeds_exactly; assumption|].
  split; [exact Hwf|]. split.
  - intros x y. eapply getPixel_zero_buffer; [exact Hwf | reflexivity].
  - intros r x y. eapply getPixel_zero_buffer;
      [apply setRotation_wf, Hwf | reflexivity].
Qed.

(** ** Further properties of the command dispatch *)

(** X14: a single command goes out over I2C as one write of the two bytes
    [0x00, c] without prefix, and over SPI as D/C driven LOW followed by
    one one-byte write; the function hands back nothing and leaves the
    object unchanged, also when the I2C write fails. *)
Theorem oled_command_dispatch w d c :
  (forall dev, i2c_dev d = Some dev ->
     call (oled_command w c) d =
       (Some RetNothing, d, [EvI2CWrite dev [0; c] true []])) /\
  (forall sd, i2c_dev d = None -> spi_dev d = Some sd ->
     call (oled_command w c) d =
       (Some RetNothing, d,
        [EvDigitalWrite (dcPin d) LOW; EvSPIWrite sd [c]])).
Proof.
  split.
  - intros dev Hdev. unfold_cmd. simpl. rewrite Hdev. reflexivity.
  - intros sd Hnone Hsd. unfold_cmd. simpl. rewrite Hnone. simpl.
    rewrite Hsd. reflexivity.
Qed.

(** X15: with neither transport device in place (an I2C display before its
    bring-up), dispatching a command drives the D/C pin LOW and then
    dereferences the NULL SPI device; only an empty command list gets
    through, returning true. *)
Theorem dispatch_without_device w d c b cs n :
  i2c_dev d = None -> spi_dev d = None ->
  call (oled_command w c) d = (None, d, [EvDigitalWrite (dcPin d) LOW]) /\
  call (oled_commandList w (b :: cs) (S n)) d =
    (None, d, [EvDigitalWrite (dcPin d) LOW]) /\
  call (oled_commandList w (b :: cs) 0) d =
    (Some (RetBool true), d, [EvDigitalWrite (dcPin d) LOW]).
Proof.
  intros Hi Hs. unfold call, oled_command, oled_commandList, bind, this. simpl.
  rewrite Hi. unfold digitalWrite, emit. simpl. rewrite Hs. simpl.
  unfold bind, spi_write, undefined, skip, return_. simpl. auto.
Qed.

(** X16: over I2C, [setContrast] sends the opcode and the level as one
    write of two bytes behind the 0x00 prefix; it hands back nothing and
    leaves the object, framebuffer included, unchanged, also when the
    write fails. *)
Theorem setContrast_over_i2c w opcode level d dev :
  i2c_dev d = Some dev ->
  call (setContrast w opcode level) d =
    (Some RetNothing, d, [EvI2CWrite dev [uint8 opcode; level] true [0]]).
Proof.
  intros Hdev. unfold setContrast, invoke. unfold_cmd. simpl. rewrite Hdev.
  simpl. destruct (w_i2c_write w dev _ true [0]); reflexivity.
Qed.

(** X17: over SPI, [setContrast] drives D/C LOW once and then writes the
    opcode and the level as two one-byte transfers, in that order, leaving
    the object unchanged. *)
Theorem setContrast_over_spi w opcode level d sd :
  i2c_dev d = None -> spi_dev d = Some sd ->
  call (setContrast w opcode level) d =
    (Some RetNothing, d,
     [EvDigitalWrite (dcPin d) LOW;
      EvSPIWrite sd [uint8 opcode]; EvSPIWrite sd [level]]).
Proof.
  intros Hnone Hsd. unfold setContrast, invoke. unfold_cmd. simpl.
  rewrite Hnone. simpl. rewrite Hsd. reflexivity.
Qed.

(** X18: [invertDisplay] sends exactly one command byte, the invert opcode
    for true and the normal opcode for false, framed as any single
    command, and leaves the object unchanged. *)
Theorem invertDisplay_dispatch w op_invert op_normal i d :
  (forall dev, i2c_dev d = Some dev ->
     call (invertDisplay w op_invert op_normal i) d =
       (Some RetNothing, d,
        [EvI2CWrite dev [0; uint8 (if i then op_invert else op_normal)] true []])) /\
  (forall sd, i2c_dev d = None -> spi_dev d = Some sd ->
     call (invertDisplay w op_invert op_normal i) d =
       (Some RetNothing, d,
        [EvDigitalWrite (dcPin d) LOW;
         EvSPIWrite sd [uint8 (if i then op_invert else op_normal)]])).
Proof.
  split.
  - intros dev Hdev. unfold invertDisplay. unfold_cmd. simpl. rewrite Hdev.
    reflexivity.
  - intros sd Hnone Hsd. unfold invertDisplay. unfold_cmd. simpl.
    rewrite Hnone. simpl. rewrite Hsd. reflexivity.
Qed.

(** ** Worked examples for the further properties *)

Lemma drawPixel_keeps_object_well_formed_witness :
  exists d' b b',
    drawPixel demo_inverse (setRotation demo_small 1) 3 2 MONOOLED_BLACK = Some d' /\
    buffer (setRotation demo_small 1) = Some b /\
    d' = set_buffer (setRotation demo_small 1) (Some b') /\
    length b' = length b /\ Forall is_uint8 b' /\
    gfx d' = gfx (setRotation demo_small 1) /\ wf d'.
Proof.
  apply (drawPixel_keeps_object_well_formed demo_inverse
           (setRotation demo_small 1) 3 2 MONOOLED_BLACK).
  apply setRotation_wf, demo_small_wf.
Defined.

Lemma drawPixel_leaves_other_pixels_witness :
  getPixel (set_buffer (setRotation demo_small 1)
              (Some [255; 255; 255; 255; 255; 247; 255; 255;
                     255; 255; 255; 255; 255; 255; 255; 255])) 3 3 =
  getPixel (setRotation demo_small 1) 3 3.
Proof.
  apply (drawPixel_leaves_other_pixels demo_inverse (setRotation demo_small 1)
           3 2 MONOOLED_BLACK _ 3 3).
  - apply setRotation_wf, demo_small_wf.
  - discriminate.
  - reflexivity.
Defined.

Lemma drawPixel_inverse_flips_pixel_witness :
  exists p d',
    getPixel (setRotation demo_small 2) 7 15 = Some p /\
    drawPixel demo_inverse (setRotation demo_small 2) 7 15 demo_inverse = Some d' /\
    getPixel d' 7 15 = Some (negb p).
Proof.
  apply (drawPixel_inverse_flips_pixel demo_inverse
           (proj1 demo_inverse_distinct) (proj2 demo_inverse_distinct)
           (setRotation demo_small 2) 7 15).
  - apply setRotation_wf, demo_small_wf.
  - reflexivity.
Defined.

Lemma drawPixel_last_write_wins_witness :
  drawPixel demo_inverse demo_small 3 2 demo_inverse ≫=
    (fun d1 => drawPixel demo_inverse d1 3 2 MONOOLED_BLACK) =
  drawPixel demo_inverse demo_small 3 2 MONOOLED_BLACK.
Proof.
  apply (drawPixel_last_write_wins demo_inverse demo_small 3 2
           demo_inverse MONOOLED_BLACK).
  - exact demo_small_wf.
  - right. reflexivity.
Defined.

Lemma clearDisplay_forgets_drawing_witness :
  drawPixel demo_inverse demo_small 3 2 MONOOLED_BLACK ≫= clearDisplay =
    clearDisplay demo_small /\
  clearDisplay demo_small ≫= clearDisplay = clearDisplay demo_small.
Proof.
  apply (clearDisplay_forgets_drawing demo_inverse demo_small 3 2 MONOOLED_BLACK).
  exact demo_small_wf.
Defined.

Lemma rotation_renames_coordinates_witness :
  let '(x', y') := rotate_coords (setRotation demo_small 3) 9 7 in
  getPixel (setRotation demo_small 3) 9 7 =
    getPixel (setRotation (setRotation demo_small 3) 0) x' y' /\
  buffer <$> drawPixel demo_inverse (setRotation demo_small 3) 9 7 MONOOLED_BLACK =
  buffer <$> drawPixel demo_inverse (setRotation (setRotation demo_small 3) 0)
               x' y' MONOOLED_BLACK.
Proof.
  apply (rotation_renames_coordinates demo_inverse (setRotation demo_small 3)
           9 7 MONOOLED_BLACK).
  - apply setRotation_wf, demo_small_wf.
  - reflexivity.
Defined.


Lemma init_failure_touches_no_pin_witness :
  forallb (fun e => negb (is_gpio e))
          (snd (call (_init spi_down_world 60 true) demo_spi)) = true.
Proof.
  apply (init_failure_touches_no_pin spi_down_world demo_spi 60 true RetNothing).
  - vm_compute. reflexivity.
  - discriminate.
Defined.

Lemma init_alloc_failure_witness :
  call (_init quiet_world 60 true)
       (MonoOLED_i2c 65535 8 (Some (Wire 0)) 4 400000 100000) =
    (Some (RetBool false),
     MonoOLED_i2c 65535 8 (Some (Wire 0)) 4 400000 100000,
     [EvMalloc (buffer_size (MonoOLED_i2c 65535 8 (Some (Wire 0)) 4 400000 100000))]).
Proof.
  apply (init_alloc_failure quiet_world
           (MonoOLED_i2c 65535 8 (Some (Wire 0)) 4 400000 100000) 60 true);
    reflexivity.
Defined.


Lemma init_then_all_pixels_off_witness :
  exists d' tr,
    call (_init quiet_world 60 true) demo_spi = (Some (RetBool true), d', tr) /\
    wf d' /\
    (forall x y, in_bounds d' x y = true -> getPixel d' x y = Some false) /\
    (forall r x y, in_bounds (setRotation d' r) x y = true ->
                   getPixel (setRotation d' r) x y = Some false).
Proof.
  apply (init_then_all_pixels_off quiet_world demo_spi 60 true).
  - apply Adafruit_GFX_new_ok.
  - vm_compute. reflexivity.
  - reflexivity.
Defined.

Lemma oled_command_dispatch_witness :
  call (oled_command spi_down_world 175) demo_i2c_up =
    (Some RetNothing, demo_i2c_up,
     [EvI2CWrite (I2CDevice 60 (Wire 0)) [0; 175] true []]) /\
  call (oled_command quiet_world 175) demo_spi =
    (Some RetNothing, demo_spi,
     [EvDigitalWrite 9 LOW; EvSPIWrite (SoftSPI 10 13 (-1) 11 1000000) [175]]).
Proof.
  split.
  - apply (proj1 (oled_command_dispatch spi_down_world demo_i2c_up 175)).
    vm_compute. reflexivity.
  - apply (proj2 (oled_command_dispatch quiet_world demo_spi 175)
             (SoftSPI 10 13 (-1) 11 1000000)); reflexivity.
Defined.

Lemma dispatch_without_device_witness :
  call (oled_command quiet_world 175) demo_i2c =
    (None, demo_i2c, [EvDigitalWrite (dcPin demo_i2c) LOW]) /\
  call (oled_commandList quiet_world (129 :: [143]) 2) demo_i2c =
    (None, demo_i2c, [EvDigitalWrite (dcPin demo_i2c) LOW]) /\
  call (oled_commandList quiet_world (129 :: [143]) 0) demo_i2c =
    (Some (RetBool true), demo_i2c, [EvDigitalWrite (dcPin demo_i2c) LOW]).
Proof.
  apply (dispatch_without_device quiet_world demo_i2c 175 129 [143] 1);
    reflexivity.
Defined.

Lemma setContrast_over_i2c_witness :
  call (setContrast quiet_world 129 143) demo_i2c_up =
    (Some RetNothing, demo_i2c_up,
     [EvI2CWrite (I2CDevice 60 (Wire 0)) [uint8 129; 143] true [0]]).
Proof.
  apply (setContrast_over_i2c quiet_world 129 143 demo_i2c_up).
  vm_compute. reflexivity.
Defined.

Lemma setContrast_over_spi_witness :
  call (setContrast quiet_world 129 143) demo_spi =
    (Some RetNothing, demo_spi,
     [EvDigitalWrite (dcPin demo_spi) LOW;
      EvSPIWrite (SoftSPI 10 13 (-1) 11 1000000) [uint8 129];
      EvSPIWrite (SoftSPI 10 13 (-1) 11 1000000) [143]]).
Proof.
  apply (setContrast_over_spi quiet_world 129 143 demo_spi); reflexivity.
Defined.

Lemma invertDisplay_dispatch_witness :
  call (invertDisplay quiet_world 167 166 true) demo_i2c_up =
    (Some RetNothing, demo_i2c_up,
     [EvI2CWrite (I2CDevice 60 (Wire 0)) [0; uint8 167] true []]) /\
  call (invertDisplay quiet_world 167 166 false) demo_spi =
    (Some RetNothing, demo_spi,
     [EvDigitalWrite (dcPin demo_spi) LOW;
      EvSPIWrite (SoftSPI 10 13 (-1) 11 1000000) [uint8 166]]).
Proof.
  split.
  - apply (proj1 (invertDisplay_dispatch quiet_world 167 166 true demo_i2c_up)).
    vm_compute. reflexivity.
  - apply (proj2 (invertDisplay_dispatch quiet_world 167 166 false demo_spi)
             (SoftSPI 10 13 (-1) 11 1000000)); reflexivity.
Defined.
